(** * hybrid_parallel_sim.py: a shallow embedding and its properties

    The Python program simulates four devices (two pipeline stages times two
    data-parallel replicas).  Each device runs in a thread of its own, issues a
    fixed sequence of [forward] and [backward] calls followed by a ring
    all-reduce, and records every call in its private log with the wall-clock
    time at which the call started.  [generate_timeline] merges the four logs.

    Conventions of the embedding.
    - Times are integers counting milliseconds: the literals [0.05], [0.08]
      and [0.02] (seconds) of the source are 50, 80 and 20.
    - [time.time()] and [time.sleep(d)] are modelled by a thread-local clock:
      [log_event] reads the clock, and the sleep advances it by [d] plus an
      overshoot chosen by the environment (the scheduler); a [Timing] gives
      the instant at which each thread reaches its first statement and the
      overshoot of each of its sleeps.
    - A thread only ever touches [self.devices[rank]] for its own rank, so the
      four threads are run one after the other on disjoint devices.
    - [print] is not modelled, except for the rows of the timeline table.
    - The two [queue.Queue] fields of a device are never used and are left out. *)

From Stdlib Require Import ZArith List String Ascii Bool Lia.
From Stdlib Require Import Permutation Sorted DecimalString DecimalZ.
Import ListNotations.
Open Scope Z_scope.

(** ** Python values *)

(** [str(i)] for an [int]: decimal digits, a leading minus sign when negative. *)
Definition str (i : Z) : string := NilEmpty.string_of_int (Z.to_int i).

(** [range(lo, hi)]. *)
Definition range (lo hi : Z) : list Z :=
  map (fun k => lo + Z.of_nat k) (seq 0 (Z.to_nat (hi - lo))).

Inductive exn : Type :=
| IndexError.

Inductive result (A : Type) : Type :=
| Ok (a : A)
| Raise (e : exn).
Arguments Ok {A} a.
Arguments Raise {A} e.

(** ** Data model *)

(** One entry of [Device.log]: the dict with keys rank, event, start, duration. *)
Module Event.
Record t : Type := mk {
  rank : nat;
  event : string;
  start : Z;
  duration : Z
}.
End Event.

Record Device : Type := mkDevice {
  rank : nat;
  stage : Z;
  world_size : Z;
  pipeline_depth : Z;
  memory : Z;
  log : list Event.t
}.

(** [Device.__init__]. *)
Definition Device_init (rank : nat) (stage world_size pipeline_depth : Z) : Device :=
  {| rank := rank; stage := stage; world_size := world_size;
     pipeline_depth := pipeline_depth; memory := 0; log := [] |}.

Record HybridTrainer : Type := mkTrainer {
  devices : list Device;
  micro_batches : Z
}.

(** [HybridTrainer.__init__]. *)
Definition HybridTrainer_init : HybridTrainer :=
  {| devices := [ Device_init 0 0 4 2; Device_init 1 1 4 2;
                  Device_init 2 0 4 2; Device_init 3 1 4 2 ];
     micro_batches := 8 |}.

(** ** A running thread: the device it owns and its clock *)

Record Thread : Type := mkThread {
  dev : Device;
  now : Z
}.

Definition action : Type := Thread -> Thread.

Definition andthen (a b : action) : action := fun s => b (a s).
Notation "a ;; b" := (andthen a b) (at level 61, right associativity).

Definition skip : action := fun s => s.

(** [for i in xs: body(i)]. *)
Definition for_each (xs : list Z) (body : Z -> action) : action :=
  fun s => fold_left (fun s i => body i s) xs s.

Definition set_log (d : Device) (l : list Event.t) : Device :=
  {| rank := rank d; stage := stage d; world_size := world_size d;
     pipeline_depth := pipeline_depth d; memory := memory d; log := l |}.

Definition set_memory (d : Device) (m : Z) : Device :=
  {| rank := rank d; stage := stage d; world_size := world_size d;
     pipeline_depth := pipeline_depth d; memory := m; log := log d |}.

Section DeviceMethods.

(** [lag k]: by how much the sleep that follows the thread's [k]-th log
    entry (counted from 0) overshoots the requested duration. *)
Variable lag : nat -> Z.

(** [Device.log_event]. *)
Definition log_event (event : string) (duration : Z) : action :=
  fun s =>
    let start_time := now s in
    let d := dev s in
    {| dev := set_log d (log d ++ [ {| Event.rank := rank d; Event.event := event;
                                       Event.start := start_time;
                                       Event.duration := duration |} ]);
       now := start_time + duration + lag (List.length (log d)) |}.

Definition add_memory (delta : Z) : action :=
  fun s => {| dev := set_memory (dev s) (memory (dev s) + delta); now := now s |}.

(** [Device.forward]. *)
Definition forward (micro_batch_id : Z) : action :=
  log_event ("Forward MB " ++ str micro_batch_id)%string 50 ;;
  add_memory 10.

(** [Device.backward]. *)
Definition backward (micro_batch_id : Z) : action :=
  log_event ("Backward MB " ++ str micro_batch_id)%string 80 ;;
  add_memory (-10).

(** [Device.all_reduce]. *)
Definition all_reduce : action :=
  let step_duration := 20 in
  let steps := 2 * (2 - 1) in
  for_each (range 0 steps)
    (fun s => log_event ("All-Reduce Step " ++ str (s + 1))%string step_duration).

(** The body of [HybridTrainer.run_1f1b_schedule] once [device] is bound:
    the two stage branches, then the all-reduce. *)
Definition schedule_branch (micro_batches : Z) (device_stage : Z) : action :=
  if device_stage =? 0 then
    forward 0 ;;
    forward 1 ;;
    backward 0 ;;
    forward 2 ;;
    backward 1 ;;
    for_each (range 2 micro_batches)
      (fun i =>
         (if i <? micro_batches then forward i else skip) ;;
         (if i - 1 >=? 0 then backward (i - 1) else skip)) ;;
    backward (micro_batches - 1)
  else if device_stage =? 1 then
    forward 0 ;;
    backward 0 ;;
    forward 1 ;;
    backward 1 ;;
    for_each (range 2 micro_batches)
      (fun i => forward i ;; backward i)
  else skip.

(** [HybridTrainer.run_1f1b_schedule], as run by a thread that starts at
    instant [t0]; the result is the device after the call. *)
Definition run_1f1b_schedule (self : HybridTrainer) (rank : nat) (t0 : Z)
  : result Device :=
  match nth_error (devices self) rank with
  | None => Raise IndexError
  | Some device =>
      Ok (dev ((schedule_branch (micro_batches self) (stage device) ;; all_reduce)
                 {| dev := device; now := t0 |}))
  end.

End DeviceMethods.

(** ** The orchestrator *)

Record Timing : Type := mkTiming {
  spawn : nat -> Z;           (* instant at which the thread of a rank starts *)
  overshoot : nat -> nat -> Z (* rank, index of the sleep *)
}.

(** [devices[i] = d], nothing when out of range. *)
Fixpoint set_nth (l : list Device) (i : nat) (d : Device) : list Device :=
  match l, i with
  | [], _ => []
  | _ :: l', O => d :: l'
  | x :: l', S i' => x :: set_nth l' i' d
  end.

(** One thread of [run]: an exception ends the thread and leaves the devices
    as they are. *)
Definition thread_body (T : Timing) (self : HybridTrainer) (i : nat) : HybridTrainer :=
  match run_1f1b_schedule (overshoot T i) self i (spawn T i) with
  | Ok d => {| devices := set_nth (devices self) i d; micro_batches := micro_batches self |}
  | Raise _ => self
  end.

(** The threads of [HybridTrainer.run], started for ranks 0..3 and joined. *)
Definition run_threads (T : Timing) (self : HybridTrainer) : HybridTrainer :=
  fold_left (thread_body T) (seq 0 4) self.

(** ** Timeline reconstruction *)

(** [list.sort(key=lambda x: x['start'])]: Python's sort is stable. *)
Fixpoint insert_by_start (e : Event.t) (l : list Event.t) : list Event.t :=
  match l with
  | [] => [e]
  | x :: l' =>
      if Event.start e <=? Event.start x then e :: x :: l'
      else x :: insert_by_start e l'
  end.

Fixpoint sort_by_start (l : list Event.t) : list Event.t :=
  match l with
  | [] => []
  | e :: l' => insert_by_start e (sort_by_start l')
  end.

(** The events collected by the two nested loops of [generate_timeline]. *)
Definition all_events (self : HybridTrainer) : list Event.t :=
  flat_map log (devices self).

(** One printed row: the relative time and the four columns. *)
Record Row : Type := mkRow {
  t_rel : Z;
  cols : list string
}.

(** [cols[i] = x] on a list of strings; [IndexError] when out of range. *)
Fixpoint set_col (cols : list string) (i : nat) (x : string) : result (list string) :=
  match cols, i with
  | [], _ => Raise IndexError
  | _ :: c', O => Ok (x :: c')
  | c :: c', S i' =>
      match set_col c' i' x with
      | Ok r => Ok (c :: r)
      | Raise e => Raise e
      end
  end.

Fixpoint print_rows (t0 : Z) (evs : list Event.t) : result (list Row) :=
  match evs with
  | [] => Ok []
  | e :: evs' =>
      match set_col (repeat EmptyString 4) (Event.rank e) (Event.event e) with
      | Raise x => Raise x
      | Ok c =>
          match print_rows t0 evs' with
          | Raise x => Raise x
          | Ok rows => Ok ({| t_rel := Event.start e - t0; cols := c |} :: rows)
          end
      end
  end.

(** [HybridTrainer.generate_timeline]: the rows it prints. *)
Definition generate_timeline (self : HybridTrainer) : result (list Row) :=
  let all_events := sort_by_start (all_events self) in
  match all_events with
  | [] => Ok []
  | e0 :: _ =>
      let t0 := Event.start e0 in
      print_rows t0 all_events
  end.

(** [HybridTrainer.run]: the final state and the printed timeline. *)
Definition run (T : Timing) (self : HybridTrainer) : HybridTrainer * result (list Row) :=
  let self' := run_threads T self in
  (self', generate_timeline self').

(** The timing in which every thread starts at instant 0 and no sleep overshoots. *)
Definition ideal : Timing := {| spawn := fun _ => 0; overshoot := fun _ _ => 0 |}.

(** ** The instruction sequence of a device

    The control flow of [run_1f1b_schedule] does not depend on the state of the
    device, so the calls it issues form a list that depends only on the stage
    and on [micro_batches].  [calls_1f1b] is that list, branch by branch;
    [schedule_branch_calls] below proves that executing it call by call is what
    [schedule_branch] does. *)

Inductive Instruction : Type :=
| Forward (micro_batch_id : Z)
| Backward (micro_batch_id : Z).

Definition event_name (c : Instruction) : string :=
  match c with
  | Forward i => ("Forward MB " ++ str i)%string
  | Backward i => ("Backward MB " ++ str i)%string
  end.

Definition exec (lag : nat -> Z) (c : Instruction) : action :=
  match c with
  | Forward i => forward lag i
  | Backward i => backward lag i
  end.

Definition exec_all (lag : nat -> Z) (cs : list Instruction) : action :=
  fun s => fold_left (fun s c => exec lag c s) cs s.

Definition calls_1f1b (micro_batches : Z) (device_stage : Z) : list Instruction :=
  if device_stage =? 0 then
    [Forward 0; Forward 1; Backward 0; Forward 2; Backward 1]
    ++ flat_map (fun i =>
                   (if i <? micro_batches then [Forward i] else [])
                   ++ (if i - 1 >=? 0 then [Backward (i - 1)] else []))
                (range 2 micro_batches)
    ++ [Backward (micro_batches - 1)]
  else if device_stage =? 1 then
    [Forward 0; Backward 0; Forward 1; Backward 1]
    ++ flat_map (fun i => [Forward i; Backward i]) (range 2 micro_batches)
  else [].

(** Simulated duration and memory effect of a call. *)
Definition cost (c : Instruction) : Z :=
  match c with Forward _ => 50 | Backward _ => 80 end.

Definition delta (c : Instruction) : Z :=
  match c with Forward _ => 10 | Backward _ => -10 end.

Definition is_forward (c : Instruction) : bool :=
  match c with Forward _ => true | Backward _ => false end.

Definition is_backward (c : Instruction) : bool := negb (is_forward c).

Definition Instruction_eqb (a b : Instruction) : bool :=
  match a, b with
  | Forward i, Forward j => i =? j
  | Backward i, Backward j => i =? j
  | _, _ => false
  end.

(** How often a call occurs in a sequence. *)
Definition occurrences (c : Instruction) (cs : list Instruction) : nat :=
  List.length (filter (Instruction_eqb c) cs).

(** Position of the first occurrence of [x] in [l]. *)
Fixpoint first_index {A : Type} (eqb : A -> A -> bool) (x : A) (l : list A) : option nat :=
  match l with
  | [] => None
  | y :: l' =>
      if eqb x y then Some O
      else match first_index eqb x l' with
           | Some n => Some (S n)
           | None => None
           end
  end.

(** [l] splits in two: every [a] is in the first part, every [b] in the
    second, and both occur. *)
Definition all_before {A : Type} (a b : A) (l : list A) : Prop :=
  exists l1 l2, l = l1 ++ l2 /\ In a l1 /\ ~ In b l1 /\ ~ In a l2 /\ In b l2.

(** The names a device has logged, in order. *)
Definition logged (d : Device) : list string := map Event.event (log d).

(** The two entries of the all-reduce. *)
Definition all_reduce_names : list string :=
  ["All-Reduce Step 1"; "All-Reduce Step 2"]%string.

(** ** Notions used by the properties *)

(** The device a thread leaves behind. *)
Definition thread_result (T : Timing) (M : Z) (rank : nat) (device : Device) : Device :=
  dev (all_reduce (overshoot T rank)
         (exec_all (overshoot T rank) (calls_1f1b M (stage device))
            {| dev := device; now := spawn T rank |})).

(** Net memory effect of a sequence of calls. *)
Definition net (cs : list Instruction) : Z := fold_right Z.add 0 (map delta cs).

(** The accumulator stays between 0 and 20 after every call of [cs] when it
    starts from [m]. *)
Fixpoint within_bounds (m : Z) (cs : list Instruction) : Prop :=
  match cs with
  | [] => True
  | c :: cs' => 0 <= m + delta c <= 20 /\ within_bounds (m + delta c) cs'
  end.

(** [e2] starts when [e1] is over. *)
Definition follows (e1 e2 : Event.t) : Prop :=
  Event.start e1 + Event.duration e1 <= Event.start e2.

(** Every later entry of the log starts after every earlier one is over. *)
Definition sequential (l : list Event.t) : Prop := StronglySorted follows l.

Definition finished_by (t : Z) (l : list Event.t) : Prop :=
  Forall (fun e => Event.start e + Event.duration e <= t) l.


(** A sleep never returns early. *)
Definition never_early (lag : nat -> Z) : Prop := forall k, 0 <= lag k.

(** The invariant of a running thread. *)
Definition on_time (s : Thread) : Prop :=
  sequential (log (dev s)) /\ finished_by (now s) (log (dev s)).



(** A printed row shows event [e] at offset [t - t0]: its name in the column of
    its rank, the other three columns empty. *)
Definition row_of (t0 : Z) (e : Event.t) (r : Row) : Prop :=
  t_rel r = Event.start e - t0
  /\ List.length (cols r) = 4%nat
  /\ nth_error (cols r) (Event.rank e) = Some (Event.event e)
  /\ forall j, (j < 4)%nat -> j <> Event.rank e -> nth_error (cols r) j = Some EmptyString.




Definition is_all_reduce_step (name : string) : bool :=
  String.prefix "All-Reduce Step " name.

(** Number of all-reduce steps in the log of a device. *)
Definition all_reduce_steps (d : Device) : nat :=
  List.length (filter is_all_reduce_step (logged d)).

(** A timing in which the first sleep of rank 2 overshoots by 100 ms. *)
Definition delayed : Timing :=
  {| spawn := fun _ => 0;
     overshoot := fun r k => if ((r =? 2) && (k =? 0))%nat then 100 else 0 |}.


(** A topology in which every device is on the last stage: no device is
    there to produce the activations that stage 1 depends on. *)
Definition headless : HybridTrainer :=
  {| devices := [ Device_init 0 1 4 2; Device_init 1 1 4 2;
                  Device_init 2 1 4 2; Device_init 3 1 4 2 ];
     micro_batches := 8 |}.

(** What an entry says apart from its start time. *)
Definition untimed (e : Event.t) : nat * string * Z :=
  (Event.rank e, Event.event e, Event.duration e).

(** The same run observed on a wall clock that is [c] ahead. *)
Definition shift_timing (c : Z) (T : Timing) : Timing :=
  {| spawn := fun r => spawn T r + c; overshoot := overshoot T |}.

Definition shift_event (c : Z) (e : Event.t) : Event.t :=
  {| Event.rank := Event.rank e; Event.event := Event.event e;
     Event.start := Event.start e + c; Event.duration := Event.duration e |}.

Definition shift_device (c : Z) (d : Device) : Device :=
  set_log d (map (shift_event c) (log d)).

Definition shift_thread (c : Z) (s : Thread) : Thread :=
  {| dev := shift_device c (dev s); now := now s + c |}.

(** A timing in which the first sleep of rank 0 overshoots by 1 ms. *)
Definition jitter : Timing :=
  {| spawn := fun _ => 0;
     overshoot := fun r k => if ((r =? 0) && (k =? 0))%nat then 1 else 0 |}.

(** ** Notions used by the further properties *)

(** The micro-batch a call works on. *)
Definition micro_batch_id (c : Instruction) : Z :=
  match c with Forward i => i | Backward i => i end.

(** Simulated duration of a sequence of calls. *)
Definition total_cost (cs : list Instruction) : Z := fold_right Z.add 0 (map cost cs).

(** Overshoot accumulated by the [n] sleeps that follow entries [k], [k+1], ... *)
Definition lag_sum (lag : nat -> Z) (k n : nat) : Z :=
  fold_right Z.add 0 (map lag (seq k n)).

(** What a device logs for its calls and its all-reduce, apart from the
    start times. *)
Definition expected_entries (rank : nat) (cs : list Instruction) : list (nat * string * Z) :=
  map (fun c => (rank, event_name c, cost c)) cs
  ++ [ (rank, "All-Reduce Step 1"%string, 20); (rank, "All-Reduce Step 2"%string, 20) ].

(** The accumulator stays between 0 and [hi] after every call of [cs] when
    it starts from [m]. *)
Fixpoint peak_within (hi m : Z) (cs : list Instruction) : Prop :=
  match cs with
  | [] => True
  | c :: cs' => 0 <= m + delta c <= hi /\ peak_within hi (m + delta c) cs'
  end.

(** Order of two events by start time alone. *)
Definition start_le (e1 e2 : Event.t) : Prop := Event.start e1 <= Event.start e2.

Definition starts_at (t : Z) (e : Event.t) : bool := Event.start e =? t.

(** Every log of the trainer read on a clock that is [c] ahead. *)
Definition shift_trainer (c : Z) (self : HybridTrainer) : HybridTrainer :=
  {| devices := map (shift_device c) (devices self);
     micro_batches := micro_batches self |}.

(** A trainer whose devices are listed in descending rank; both have logged
    one event at instant 0. *)
Definition reversed : HybridTrainer :=
  {| devices :=
       [ set_log (Device_init 1 1 2 2) [Event.mk 1 "Forward MB 0" 0 50];
         set_log (Device_init 0 0 2 2) [Event.mk 0 "Forward MB 0" 0 50] ];
     micro_batches := 8 |}.

(** A device on a third stage. *)
Definition three_stages : HybridTrainer :=
  {| devices := [Device_init 0 0 3 3; Device_init 1 1 3 3; Device_init 2 2 3 3];
     micro_batches := 8 |}.

(** The trainer with a fifth device. *)
Definition five_devices : HybridTrainer :=
  {| devices := devices HybridTrainer_init ++ [Device_init 4 0 5 2];
     micro_batches := 8 |}.

(** Number of entries of a given name. *)
Definition count_name (name : string) (names : list string) : nat :=
  List.length (filter (String.eqb name) names).

(** A trainer with an empty batch. *)
Definition empty_batch : HybridTrainer :=
  {| devices := [Device_init 0 0 2 2; Device_init 1 1 2 2]; micro_batches := 0 |}.

(** * Properties *)

(** ** Ranges and loops *)

Lemma range_nil (lo hi : Z) : hi <= lo -> range lo hi = [].
Proof.
  intros H. unfold range.
  replace (Z.to_nat (hi - lo)) with O by lia. reflexivity.
Qed.

Lemma range_cons (lo hi : Z) : lo < hi -> range lo hi = lo :: range (lo + 1) hi.
Proof.
  intros H. unfold range.
  replace (Z.to_nat (hi - lo)) with (S (Z.to_nat (hi - (lo + 1)))) by lia.
  cbn [seq map]. f_equal; [lia|].
  rewrite <- seq_shift, map_map.
  apply map_ext. intros k. lia.
Qed.

Lemma in_range (lo hi x : Z) : In x (range lo hi) <-> lo <= x < hi.
Proof.
  unfold range. rewrite in_map_iff. split.
  - intros [k [<- Hk]]. apply in_seq in Hk. lia.
  - intros H. exists (Z.to_nat (x - lo)). split; [lia|].
    apply in_seq. lia.
Qed.

Lemma map_seq_shift (a a' : Z) (n : nat) :
  forall s t : nat, a + Z.of_nat s = a' + Z.of_nat t ->
    map (fun k => a + Z.of_nat k) (seq s n) = map (fun k => a' + Z.of_nat k) (seq t n).
Proof.
  induction n as [|n IH]; intros s t H; [reflexivity|].
  cbn [seq map]. f_equal; [exact H|].
  apply IH. lia.
Qed.

Lemma range_app (a b c : Z) : a <= b <= c -> range a c = range a b ++ range b c.
Proof.
  intros H. unfold range.
  replace (Z.to_nat (c - a)) with (Z.to_nat (b - a) + Z.to_nat (c - b))%nat by lia.
  rewrite seq_app, map_app. f_equal.
  apply map_seq_shift. lia.
Qed.

Lemma flat_map_ext_in {A B : Type} (f g : A -> list B) (l : list A) :
  (forall x, In x l -> f x = g x) -> flat_map f l = flat_map g l.
Proof.
  induction l as [|x l IH]; intros H; [reflexivity|].
  cbn [flat_map]. rewrite (H x (or_introl eq_refl)), IH; [reflexivity|].
  intros y Hy. apply H. now right.
Qed.

(** ** The calls of [run_1f1b_schedule] *)

Section Execution.

Variable lag : nat -> Z.

Lemma exec_all_app (cs1 cs2 : list Instruction) (s : Thread) :
  exec_all lag (cs1 ++ cs2) s = exec_all lag cs2 (exec_all lag cs1 s).
Proof. unfold exec_all. apply fold_left_app. Qed.

Lemma exec_all_cons (c : Instruction) (cs : list Instruction) (s : Thread) :
  exec_all lag (c :: cs) s = exec_all lag cs (exec lag c s).
Proof. reflexivity. Qed.

Lemma for_each_calls (f : Z -> list Instruction) (body : Z -> action) (xs : list Z) :
  (forall i s, In i xs -> body i s = exec_all lag (f i) s) ->
  forall s, for_each xs body s = exec_all lag (flat_map f xs) s.
Proof.
  induction xs as [|x xs IH]; intros H s; [reflexivity|].
  cbn [flat_map]. rewrite exec_all_app, <- H by now left.
  unfold for_each in *. cbn [fold_left]. apply IH.
  intros i s' Hi. apply H. now right.
Qed.

(** Running the branch of a stage is running its calls one by one. *)
Lemma schedule_branch_calls (M st : Z) (s : Thread) :
  schedule_branch lag M st s = exec_all lag (calls_1f1b M st) s.
Proof.
  unfold schedule_branch, calls_1f1b.
  destruct (st =? 0).
  - unfold andthen. rewrite !exec_all_app.
    cbn [exec_all fold_left exec]. unfold andthen.
    f_equal. apply for_each_calls. intros i s' _.
    unfold andthen. rewrite exec_all_app.
    destruct (i <? M), (i - 1 >=? 0); reflexivity.
  - destruct (st =? 1); [|reflexivity].
    unfold andthen. rewrite exec_all_app.
    apply for_each_calls. intros i s' _. reflexivity.
Qed.

Lemma all_reduce_unfold (s : Thread) :
  all_reduce lag s
  = log_event lag "All-Reduce Step 2" 20 (log_event lag "All-Reduce Step 1" 20 s).
Proof. reflexivity. Qed.

(** What one call does to the fields of the thread. *)
Lemma exec_rank c s : rank (dev (exec lag c s)) = rank (dev s).
Proof. destruct c; reflexivity. Qed.

Lemma exec_stage c s : stage (dev (exec lag c s)) = stage (dev s).
Proof. destruct c; reflexivity. Qed.

Lemma exec_memory c s : memory (dev (exec lag c s)) = memory (dev s) + delta c.
Proof. destruct c; reflexivity. Qed.

Lemma exec_log c s :
  log (dev (exec lag c s))
  = log (dev s) ++ [Event.mk (rank (dev s)) (event_name c) (now s) (cost c)].
Proof. destruct c; reflexivity. Qed.

Lemma exec_now c s :
  now (exec lag c s) = now s + cost c + lag (List.length (log (dev s))).
Proof. destruct c; reflexivity. Qed.

Lemma exec_all_rank cs : forall s, rank (dev (exec_all lag cs s)) = rank (dev s).
Proof.
  induction cs as [|c cs IH]; intros s; [reflexivity|].
  rewrite exec_all_cons, IH. apply exec_rank.
Qed.

Lemma exec_all_memory cs :
  forall s, memory (dev (exec_all lag cs s))
            = memory (dev s) + fold_right Z.add 0 (map delta cs).
Proof.
  induction cs as [|c cs IH]; intros s.
  - cbn. lia.
  - rewrite exec_all_cons, IH, exec_memory. cbn [map fold_right]. lia.
Qed.

Lemma exec_all_logged cs :
  forall s, logged (dev (exec_all lag cs s)) = logged (dev s) ++ map event_name cs.
Proof.
  unfold logged.
  induction cs as [|c cs IH]; intros s.
  - cbn. now rewrite app_nil_r.
  - rewrite exec_all_cons, IH, exec_log, map_app, <- app_assoc. reflexivity.
Qed.

Lemma all_reduce_memory s : memory (dev (all_reduce lag s)) = memory (dev s).
Proof. reflexivity. Qed.

Lemma all_reduce_logged s :
  logged (dev (all_reduce lag s)) = logged (dev s) ++ all_reduce_names.
Proof.
  rewrite all_reduce_unfold. unfold logged, log_event. cbn [dev log set_log].
  rewrite !map_app, <- app_assoc. reflexivity.
Qed.

(** The result of [run_1f1b_schedule] in terms of the calls. *)
Lemma run_1f1b_schedule_calls (self : HybridTrainer) (rank : nat) (t0 : Z)
      (device : Device) :
  nth_error (devices self) rank = Some device ->
  run_1f1b_schedule lag self rank t0
  = Ok (dev (all_reduce lag
               (exec_all lag (calls_1f1b (micro_batches self) (stage device))
                  {| dev := device; now := t0 |}))).
Proof.
  intros H. unfold run_1f1b_schedule. rewrite H. unfold andthen.
  now rewrite schedule_branch_calls.
Qed.

End Execution.

(** ** The threads of [run] *)

Lemma nth_error_set_nth_same (l : list Device) (i : nat) (d x : Device) :
  nth_error l i = Some x -> nth_error (set_nth l i d) i = Some d.
Proof.
  revert i. induction l as [|y l IH]; intros [|i] H; try discriminate; cbn in *; auto.
Qed.

Lemma nth_error_set_nth_other (l : list Device) (i j : nat) (d : Device) :
  i <> j -> nth_error (set_nth l i d) j = nth_error l j.
Proof.
  revert i j. induction l as [|y l IH]; intros [|i] [|j] H; cbn; auto; congruence.
Qed.

Lemma thread_body_micro_batches T self i :
  micro_batches (thread_body T self i) = micro_batches self.
Proof.
  unfold thread_body. destruct (run_1f1b_schedule _ _ _ _); reflexivity.
Qed.

Lemma thread_body_same T self i device :
  nth_error (devices self) i = Some device ->
  nth_error (devices (thread_body T self i)) i
  = Some (thread_result T (micro_batches self) i device).
Proof.
  intros H. unfold thread_body.
  rewrite (run_1f1b_schedule_calls _ _ _ _ _ H). cbn [devices].
  now apply nth_error_set_nth_same with (x := device).
Qed.

Lemma thread_body_other T self i j :
  i <> j -> nth_error (devices (thread_body T self i)) j = nth_error (devices self) j.
Proof.
  intros H. unfold thread_body.
  destruct (run_1f1b_schedule _ _ _ _); [|reflexivity].
  cbn [devices]. now apply nth_error_set_nth_other.
Qed.

Lemma run_threads_micro_batches T self :
  micro_batches (run_threads T self) = micro_batches self.
Proof.
  unfold run_threads. cbn [seq fold_left].
  now rewrite !thread_body_micro_batches.
Qed.

(** Each of the four threads works on the device of its rank as it was
    before the run, whatever the other threads do. *)
Lemma run_threads_nth T self rank device :
  (rank < 4)%nat ->
  nth_error (devices self) rank = Some device ->
  nth_error (devices (run_threads T self)) rank
  = Some (thread_result T (micro_batches self) rank device).
Proof.
  intros Hr H. unfold run_threads. cbn [seq fold_left].
  destruct rank as [|[|[|[|rank]]]]; try lia.
  - rewrite !thread_body_other by lia. now apply thread_body_same.
  - rewrite !thread_body_other by lia.
    rewrite (thread_body_same T _ 1%nat device), thread_body_micro_batches; [reflexivity|].
    now rewrite thread_body_other by lia.
  - rewrite !thread_body_other by lia.
    rewrite (thread_body_same T _ 2%nat device), !thread_body_micro_batches; [reflexivity|].
    now rewrite !thread_body_other by lia.
  - rewrite (thread_body_same T _ 3%nat device), !thread_body_micro_batches; [reflexivity|].
    now rewrite !thread_body_other by lia.
Qed.

Lemma HybridTrainer_init_ranks (r : nat) (device : Device) :
  nth_error (devices HybridTrainer_init) r = Some device ->
  (r < 4)%nat /\ rank device = r
  /\ stage device = Z.of_nat (r mod 2) /\ memory device = 0 /\ log device = [].
Proof.
  destruct r as [|[|[|[|r]]]]; cbn; intros H; inversion H; subst; cbn;
    try (repeat split; lia).
  destruct r; discriminate.
Qed.

(** ** The memory accumulator *)

Lemma net_app cs1 cs2 : net (cs1 ++ cs2) = net cs1 + net cs2.
Proof.
  unfold net. induction cs1 as [|c cs1 IH]; cbn [app map fold_right]; lia.
Qed.

Lemma within_bounds_app m cs1 cs2 :
  within_bounds m cs1 -> within_bounds (m + net cs1) cs2 ->
  within_bounds m (cs1 ++ cs2).
Proof.
  revert m. induction cs1 as [|c cs1 IH]; intros m H1 H2.
  - cbn in *. now rewrite Z.add_0_r in H2.
  - cbn [app within_bounds] in *. destruct H1 as [Hc H1]. split; [exact Hc|].
    apply IH; [exact H1|].
    unfold net in *. cbn [map fold_right] in H2.
    now rewrite Z.add_assoc in H2.
Qed.

(** Inside the loops the two guards of the stage-0 body are always true. *)
Lemma calls_1f1b_stage0 (M : Z) :
  calls_1f1b M 0
  = [Forward 0; Forward 1; Backward 0; Forward 2; Backward 1]
    ++ flat_map (fun i => [Forward i; Backward (i - 1)]) (range 2 M)
    ++ [Backward (M - 1)].
Proof.
  unfold calls_1f1b. cbn [Z.eqb]. do 2 f_equal.
  apply flat_map_ext_in. intros i Hi. apply in_range in Hi.
  replace (i <? M) with true by (symmetry; apply Z.ltb_lt; lia).
  replace (i - 1 >=? 0) with true by (symmetry; apply Z.geb_le; lia).
  reflexivity.
Qed.

Lemma calls_1f1b_stage1 (M : Z) :
  calls_1f1b M 1
  = [Forward 0; Backward 0; Forward 1; Backward 1]
    ++ flat_map (fun i => [Forward i; Backward i]) (range 2 M).
Proof. reflexivity. Qed.

Lemma calls_1f1b_other (M st : Z) : st <> 0 -> st <> 1 -> calls_1f1b M st = [].
Proof.
  intros H0 H1. unfold calls_1f1b.
  destruct (Z.eqb_spec st 0); [contradiction|].
  destruct (Z.eqb_spec st 1); [contradiction|reflexivity].
Qed.

Lemma net_pairs (f g : Z -> Z) (xs : list Z) :
  net (flat_map (fun i => [Forward (f i); Backward (g i)]) xs) = 0.
Proof.
  induction xs as [|x xs IH]; [reflexivity|].
  cbn [flat_map]. rewrite net_app, IH. reflexivity.
Qed.

Lemma within_bounds_pairs (f g : Z -> Z) (m : Z) (xs : list Z) :
  0 <= m <= 10 ->
  within_bounds m (flat_map (fun i => [Forward (f i); Backward (g i)]) xs).
Proof.
  intros Hm. induction xs as [|x xs IH]; [exact I|].
  cbn [flat_map app within_bounds delta].
  repeat split; try lia.
  now replace (m + 10 + -10) with m by lia.
Qed.

(** The calls of every stage balance, whatever [micro_batches] is. *)
Lemma net_calls_1f1b (M st : Z) : net (calls_1f1b M st) = 0.
Proof.
  destruct (Z.eq_dec st 0) as [->|H0].
  - rewrite calls_1f1b_stage0, !net_app, net_pairs. reflexivity.
  - destruct (Z.eq_dec st 1) as [->|H1].
    + rewrite calls_1f1b_stage1, net_app, (net_pairs (fun i => i) (fun i => i)).
      reflexivity.
    + now rewrite calls_1f1b_other.
Qed.

Lemma within_bounds_calls_1f1b (M st : Z) : within_bounds 0 (calls_1f1b M st).
Proof.
  destruct (Z.eq_dec st 0) as [->|H0].
  - rewrite calls_1f1b_stage0.
    apply within_bounds_app; [cbn; lia|].
    apply within_bounds_app.
    + apply within_bounds_pairs. cbn. lia.
    + rewrite net_pairs. cbn. lia.
  - destruct (Z.eq_dec st 1) as [->|H1].
    + rewrite calls_1f1b_stage1.
      apply within_bounds_app; [cbn; lia|].
      apply (within_bounds_pairs (fun i => i) (fun i => i)). cbn. lia.
    + rewrite calls_1f1b_other by assumption. exact I.
Qed.

Lemma within_bounds_firstn (lag : nat -> Z) (cs : list Instruction) :
  forall (k : nat) (s : Thread),
    0 <= memory (dev s) <= 20 ->
    within_bounds (memory (dev s)) cs ->
    0 <= memory (dev (exec_all lag (firstn k cs) s)) <= 20.
Proof.
  induction cs as [|c cs IH]; intros k s Hm H.
  - now rewrite firstn_nil.
  - destruct k as [|k]; [exact Hm|].
    cbn [firstn]. rewrite exec_all_cons.
    destruct H as [Hc H].
    apply IH; rewrite exec_memory; assumption.
Qed.

Lemma count_forward_backward (cs : list Instruction) :
  net cs = 10 * (Z.of_nat (List.length (filter is_forward cs))
                 - Z.of_nat (List.length (filter is_backward cs))).
Proof.
  unfold net, is_backward.
  induction cs as [|[i|i] cs IH]; cbn [map fold_right filter is_forward negb delta];
    [reflexivity| |]; cbn [List.length]; lia.
Qed.

(** ** Logs: ownership and timing *)

Lemma StronglySorted_snoc {A : Type} (R : A -> A -> Prop) (l : list A) (x : A) :
  StronglySorted R l -> Forall (fun y => R y x) l -> StronglySorted R (l ++ [x]).
Proof.
  induction 1 as [|a l Hl IH Ha]; intros Hx; cbn.
  - repeat constructor.
  - inversion Hx; subst. constructor; [now apply IH|].
    apply Forall_app. split; [exact Ha|now constructor].
Qed.

Lemma StronglySorted_nth {A : Type} (R : A -> A -> Prop) (l : list A) :
  StronglySorted R l ->
  forall (p q : nat) (x y : A),
    (p < q)%nat -> nth_error l p = Some x -> nth_error l q = Some y -> R x y.
Proof.
  induction 1 as [|a l Hl IH Ha]; intros p q x y Hpq Hp Hq.
  - destruct p; discriminate.
  - destruct q as [|q]; [lia|]. cbn in Hq. destruct p as [|p].
    + cbn in Hp. inversion Hp; subst.
      rewrite Forall_forall in Ha. apply Ha. eapply nth_error_In; eassumption.
    + cbn in Hp. apply (IH p q); [lia|assumption|assumption].
Qed.

Section Timing.

Variable lag : nat -> Z.
Hypothesis lag_nonneg : never_early lag.

Lemma log_event_on_time (name : string) (d : Z) (s : Thread) :
  0 <= d -> on_time s -> on_time (log_event lag name d s).
Proof.
  intros Hd [Hseq Hfin]. unfold on_time, log_event. cbn [dev now log set_log].
  pose proof (lag_nonneg (List.length (log (dev s)))) as Hlag.
  split.
  - apply StronglySorted_snoc; [exact Hseq|].
    unfold finished_by in Hfin. eapply Forall_impl; [|exact Hfin].
    intros e He. unfold follows. cbn. exact He.
  - unfold finished_by in *. apply Forall_app. split.
    + eapply Forall_impl; [|exact Hfin]. cbn. intros e He. lia.
    + constructor; [cbn; lia|constructor].
Qed.

Lemma exec_on_time (c : Instruction) (s : Thread) : on_time s -> on_time (exec lag c s).
Proof.
  intros H. destruct c; cbn [exec]; unfold forward, backward, andthen, add_memory, on_time;
    cbn [dev now set_memory log]; apply log_event_on_time; (lia || exact H).
Qed.

Lemma exec_all_on_time (cs : list Instruction) :
  forall s, on_time s -> on_time (exec_all lag cs s).
Proof.
  induction cs as [|c cs IH]; intros s H; [exact H|].
  rewrite exec_all_cons. apply IH. now apply exec_on_time.
Qed.

Lemma all_reduce_on_time (s : Thread) : on_time s -> on_time (all_reduce lag s).
Proof.
  intros H. rewrite all_reduce_unfold.
  apply log_event_on_time; [lia|]. apply log_event_on_time; [lia|exact H].
Qed.

End Timing.






Lemma thread_result_sequential T M r device :
  never_early (overshoot T r) -> log device = [] ->
  sequential (log (thread_result T M r device)).
Proof.
  intros HT H. unfold thread_result.
  apply (all_reduce_on_time _ HT). apply (exec_all_on_time _ HT).
  split; cbn; rewrite H; constructor.
Qed.

Lemma thread_result_logged T M r device :
  log device = [] ->
  logged (thread_result T M r device)
  = map event_name (calls_1f1b M (stage device)) ++ all_reduce_names.
Proof.
  intros H. unfold thread_result.
  rewrite all_reduce_logged, exec_all_logged. unfold logged at 1. cbn [dev].
  now rewrite H.
Qed.

Lemma thread_result_memory T M r device :
  memory (thread_result T M r device) = memory device.
Proof.
  unfold thread_result. rewrite all_reduce_memory, exec_all_memory.
  fold (net (calls_1f1b M (stage device))). rewrite net_calls_1f1b. cbn. lia.
Qed.

(** ** Order of the calls of one micro-batch *)

Section FirstIndex.

Context {A : Type} (eqb : A -> A -> bool).
Hypothesis eqb_eq : forall x y, eqb x y = true <-> x = y.

Lemma first_index_nth (x : A) (l : list A) :
  forall n, first_index eqb x l = Some n -> nth_error l n = Some x.
Proof.
  induction l as [|y l IH]; intros n H; [discriminate|].
  cbn in H. destruct (eqb x y) eqn:E.
  - inversion H; subst. apply eqb_eq in E. now subst.
  - destruct (first_index eqb x l) as [m|]; [|discriminate].
    inversion H; subst. cbn. now apply IH.
Qed.

Lemma first_index_In (x : A) (l : list A) :
  In x l -> exists n, first_index eqb x l = Some n.
Proof.
  induction l as [|y l IH]; intros H; [contradiction|].
  cbn. destruct (eqb x y) eqn:E; [now exists O|].
  destruct H as [H|H].
  - subst. assert (eqb x x = true) by now apply eqb_eq. congruence.
  - destruct (IH H) as [n Hn]. rewrite Hn. now exists (S n).
Qed.

Lemma all_before_nth (a b : A) (l : list A) (p q : nat) :
  all_before a b l ->
  nth_error l p = Some a -> nth_error l q = Some b -> (p < q)%nat.
Proof.
  intros (l1 & l2 & -> & _ & Hb1 & Ha2 & _) Hp Hq.
  destruct (Nat.lt_ge_cases p (List.length l1)) as [Hlt|Hge].
  - destruct (Nat.lt_ge_cases q (List.length l1)) as [Hq1|Hq2]; [|lia].
    rewrite nth_error_app1 in Hq by assumption.
    apply nth_error_In in Hq. contradiction.
  - rewrite nth_error_app2 in Hp by assumption.
    apply nth_error_In in Hp. contradiction.
Qed.

Lemma all_before_first (a b : A) (l : list A) :
  all_before a b l ->
  exists pf pb, first_index eqb a l = Some pf /\ first_index eqb b l = Some pb
                /\ (pf < pb)%nat.
Proof.
  intros H. pose proof H as (l1 & l2 & -> & Ha1 & _ & _ & Hb2).
  destruct (first_index_In a (l1 ++ l2)) as [pf Hpf]; [apply in_or_app; now left|].
  destruct (first_index_In b (l1 ++ l2)) as [pb Hpb]; [apply in_or_app; now right|].
  exists pf, pb. repeat split; try assumption.
  apply (all_before_nth a b (l1 ++ l2)); [exact H| |]; now apply first_index_nth.
Qed.

End FirstIndex.

Lemma all_before_map {A B : Type} (f : A -> B) (a b : A) (l : list A) (r : list B) :
  (forall x y, f x = f y -> x = y) -> ~ In (f a) r ->
  all_before a b l -> all_before (f a) (f b) (map f l ++ r).
Proof.
  intros Hinj Hr (l1 & l2 & -> & Ha1 & Hb1 & Ha2 & Hb2).
  exists (map f l1), (map f l2 ++ r). repeat split.
  - now rewrite map_app, app_assoc.
  - now apply in_map.
  - intros H. apply in_map_iff in H as (x & Hx & Hin). apply Hinj in Hx. now subst.
  - intros H. apply in_app_or in H as [H|H]; [|contradiction].
    apply in_map_iff in H as (x & Hx & Hin). apply Hinj in Hx. now subst.
  - apply in_or_app. left. now apply in_map.
Qed.

Lemma str_inj (i j : Z) : str i = str j -> i = j.
Proof.
  unfold str. intros H. apply DecimalZ.to_int_inj.
  assert (E : Some (Z.to_int i) = Some (Z.to_int j)).
  { rewrite <- !NilEmpty.isi. now rewrite H. }
  now inversion E.
Qed.

Lemma event_name_inj (a b : Instruction) : event_name a = event_name b -> a = b.
Proof.
  destruct a as [i|i], b as [j|j]; cbn; intros H; try discriminate;
    inversion H as [E]; apply str_inj in E; now subst.
Qed.

Lemma event_name_not_all_reduce (c : Instruction) : ~ In (event_name c) all_reduce_names.
Proof.
  destruct c; cbn; intros [H|[H|[]]]; discriminate.
Qed.

Lemma Instruction_eqb_eq (a b : Instruction) : Instruction_eqb a b = true <-> a = b.
Proof.
  destruct a as [i|i], b as [j|j]; cbn; rewrite ?Z.eqb_eq;
    split; intros H; try discriminate; try (inversion H; subst); reflexivity.
Qed.

Lemma in_pairs_forward (f g : Z -> Z) (xs : list Z) (j : Z) :
  In (Forward j) (flat_map (fun i => [Forward (f i); Backward (g i)]) xs)
  <-> exists x, In x xs /\ j = f x.
Proof.
  rewrite in_flat_map. split.
  - intros (x & Hx & [H|[H|[]]]); [|discriminate]. inversion H. now exists x.
  - intros (x & Hx & ->). exists x. split; [exact Hx|now left].
Qed.

Lemma in_pairs_backward (f g : Z -> Z) (xs : list Z) (j : Z) :
  In (Backward j) (flat_map (fun i => [Forward (f i); Backward (g i)]) xs)
  <-> exists x, In x xs /\ j = g x.
Proof.
  rewrite in_flat_map. split.
  - intros (x & Hx & [H|[H|[]]]); [discriminate|]. inversion H. now exists x.
  - intros (x & Hx & ->). exists x. split; [exact Hx|right; now left].
Qed.

(** Membership in a list of calls made of literal calls and loops. *)
Ltac in_calls :=
  repeat match goal with
    | H : In _ (_ ++ _) |- _ => apply in_app_or in H
    | H : In _ (_ :: _) |- _ => destruct H as [H|H]
    | H : In _ [] |- _ => destruct H
    | H : _ \/ _ |- _ => destruct H as [H|H]
    | H : In (Forward _) (flat_map _ _) |- _ =>
        apply in_pairs_forward in H; destruct H as (? & H & ?)
    | H : In (Backward _) (flat_map _ _) |- _ =>
        apply in_pairs_backward in H; destruct H as (? & H & ?)
    | H : In _ (range _ _) |- _ => apply in_range in H
    | H : Forward _ = Forward _ |- _ => inversion H; clear H
    | H : Backward _ = Backward _ |- _ => inversion H; clear H
    | H : Forward _ = Backward _ |- _ => discriminate H
    | H : Backward _ = Forward _ |- _ => discriminate H
    end.

Lemma all_before_stage1 (M i : Z) :
  0 <= i < M -> all_before (Forward i) (Backward i) (calls_1f1b M 1).
Proof.
  intros Hi. rewrite calls_1f1b_stage1.
  destruct (Z.eq_dec i 0) as [->|H0]; [|destruct (Z.eq_dec i 1) as [->|H1]].
  - exists [Forward 0],
      ([Backward 0; Forward 1; Backward 1]
         ++ flat_map (fun i => [Forward i; Backward i]) (range 2 M)).
    repeat split; try (cbn; tauto); intros H; in_calls; lia.
  - exists [Forward 0; Backward 0; Forward 1],
      ([Backward 1] ++ flat_map (fun i => [Forward i; Backward i]) (range 2 M)).
    repeat split; try (cbn; tauto); intros H; in_calls; lia.
  - exists ([Forward 0; Backward 0; Forward 1; Backward 1]
              ++ flat_map (fun i => [Forward i; Backward i]) (range 2 i)
              ++ [Forward i]),
      ([Backward i] ++ flat_map (fun i => [Forward i; Backward i]) (range (i + 1) M)).
    repeat split.
    + rewrite (range_app 2 i M) by lia. rewrite (range_cons i M) by lia.
      rewrite flat_map_app. cbn [flat_map app].
      rewrite <- !app_assoc. reflexivity.
    + apply in_or_app. right. apply in_or_app. right. now left.
    + intros H; in_calls; lia.
    + intros H; in_calls; lia.
    + now left.
Qed.

Lemma all_before_stage0 (M i : Z) :
  0 <= i < M -> all_before (Forward i) (Backward i) (calls_1f1b M 0).
Proof.
  intros Hi. rewrite calls_1f1b_stage0.
  destruct (Z.eq_dec i 0) as [->|H0]; [|destruct (Z.eq_dec i 1) as [->|H1]].
  - exists [Forward 0; Forward 1],
      ([Backward 0; Forward 2; Backward 1]
         ++ flat_map (fun i => [Forward i; Backward (i - 1)]) (range 2 M)
         ++ [Backward (M - 1)]).
    repeat split; try (cbn; tauto); intros H; in_calls; lia.
  - exists [Forward 0; Forward 1; Backward 0; Forward 2],
      ([Backward 1]
         ++ flat_map (fun i => [Forward i; Backward (i - 1)]) (range 2 M)
         ++ [Backward (M - 1)]).
    repeat split; try (cbn; tauto); intros H; in_calls; lia.
  - exists ([Forward 0; Forward 1; Backward 0; Forward 2; Backward 1]
              ++ flat_map (fun i => [Forward i; Backward (i - 1)]) (range 2 (i + 1))),
      (flat_map (fun i => [Forward i; Backward (i - 1)]) (range (i + 1) M)
         ++ [Backward (M - 1)]).
    repeat split.
    + rewrite (range_app 2 (i + 1) M) by lia.
      rewrite flat_map_app, <- !app_assoc. reflexivity.
    + apply in_or_app. right. apply in_pairs_forward.
      exists i. split; [apply in_range; lia|reflexivity].
    + intros H; in_calls; lia.
    + intros H; in_calls; lia.
    + apply in_or_app. destruct (Z.eq_dec i (M - 1)) as [->|Hne].
      * right. now left.
      * left. apply in_pairs_backward.
        exists (i + 1). split; [apply in_range; lia|lia].
Qed.

Lemma all_before_calls_1f1b (M st i : Z) :
  st = 0 \/ st = 1 -> 0 <= i < M ->
  all_before (Forward i) (Backward i) (calls_1f1b M st).
Proof.
  intros [->| ->] Hi; [now apply all_before_stage0|now apply all_before_stage1].
Qed.

(** ** The merged timeline *)

Lemma insert_by_start_perm (e : Event.t) (l : list Event.t) :
  Permutation (e :: l) (insert_by_start e l).
Proof.
  induction l as [|x l IH]; cbn; [reflexivity|].
  destruct (Event.start e <=? Event.start x); [reflexivity|].
  rewrite perm_swap. now constructor.
Qed.

Lemma sort_by_start_perm (l : list Event.t) : Permutation l (sort_by_start l).
Proof.
  induction l as [|e l IH]; cbn; [constructor|].
  rewrite <- insert_by_start_perm. now constructor.
Qed.



Lemma set_col_ok (c : list string) (i : nat) (x : string) :
  (i < List.length c)%nat ->
  exists c', set_col c i x = Ok c' /\ nth_error c' i = Some x
             /\ List.length c' = List.length c
             /\ forall j, j <> i -> nth_error c' j = nth_error c j.
Proof.
  revert i. induction c as [|y c IH]; intros i Hi; [cbn in Hi; lia|].
  destruct i as [|i].
  - exists (x :: c). repeat split. intros [|j] Hj; [congruence|reflexivity].
  - destruct (IH i) as (c' & E & Hn & Hlen & Hother); [cbn in Hi; lia|].
    exists (y :: c'). cbn. rewrite E. repeat split; [exact Hn|now rewrite Hlen|].
    intros [|j] Hj; [reflexivity|]. cbn. apply Hother. congruence.
Qed.

Lemma print_rows_ok (t0 : Z) (evs : list Event.t) :
  Forall (fun e => (Event.rank e < 4)%nat) evs ->
  exists rows, print_rows t0 evs = Ok rows /\ Forall2 (row_of t0) evs rows.
Proof.
  induction 1 as [|e evs He Hevs (rows & E & Hrows)]; cbn [print_rows].
  - exists []. split; [reflexivity|constructor].
  - destruct (set_col_ok (repeat EmptyString 4) (Event.rank e) (Event.event e))
      as (c & Ec & Hn & Hlen & Hother); [exact He|].
    rewrite Ec, E. eexists. split; [reflexivity|].
    constructor; [|exact Hrows].
    unfold row_of. cbn [t_rel cols]. repeat split; try assumption.
    intros j Hj Hne. rewrite (Hother j Hne).
    destruct j as [|[|[|[|j]]]]; try reflexivity; lia.
Qed.

Lemma run_threads_init (T : Timing) :
  devices (run_threads T HybridTrainer_init)
  = [ thread_result T 8 0 (Device_init 0 0 4 2);
      thread_result T 8 1 (Device_init 1 1 4 2);
      thread_result T 8 2 (Device_init 2 0 4 2);
      thread_result T 8 3 (Device_init 3 1 4 2) ].
Proof.
  unfold run_threads. cbn [seq fold_left].
  unfold thread_body at 4.
  rewrite (run_1f1b_schedule_calls _ _ 0%nat _ (Device_init 0 0 4 2)) by reflexivity.
  unfold thread_body at 3.
  rewrite (run_1f1b_schedule_calls _ _ 1%nat _ (Device_init 1 1 4 2)) by reflexivity.
  unfold thread_body at 2.
  rewrite (run_1f1b_schedule_calls _ _ 2%nat _ (Device_init 2 0 4 2)) by reflexivity.
  unfold thread_body.
  rewrite (run_1f1b_schedule_calls _ _ 3%nat _ (Device_init 3 1 4 2)) by reflexivity.
  reflexivity.
Qed.







Lemma Forall2_In_r {A B : Type} (R : A -> B -> Prop) (l : list A) (l' : list B) :
  Forall2 R l l' -> forall y, In y l' -> exists x, In x l /\ R x y.
Proof.
  induction 1 as [|x y l l' Hxy _ IH]; intros z Hz; [contradiction|].
  destruct Hz as [<-|Hz].
  - exists x. split; [now left|exact Hxy].
  - destruct (IH z Hz) as (x' & Hx' & Hr). exists x'. split; [now right|exact Hr].
Qed.



(** ** The schedule of a device *)

Lemma Some_inj {A : Type} (a b : A) : Some a = Some b -> a = b.
Proof. intros H. now inversion H. Qed.

Lemma Ok_inj {A : Type} (a b : A) : Ok a = Ok b -> a = b.
Proof. intros H. now inversion H. Qed.

Lemma run_1f1b_schedule_init (T : Timing) (r : nat) (device : Device) :
  nth_error (devices HybridTrainer_init) r = Some device ->
  run_1f1b_schedule (overshoot T r) HybridTrainer_init r (spawn T r)
  = Ok (thread_result T 8 r device).
Proof.
  intros H. now rewrite (run_1f1b_schedule_calls _ _ _ _ _ H).
Qed.

Lemma run_1f1b_schedule_logged lag self r t0 device d :
  nth_error (devices self) r = Some device -> log device = [] ->
  run_1f1b_schedule lag self r t0 = Ok d ->
  logged d = map event_name (calls_1f1b (micro_batches self) (stage device))
             ++ all_reduce_names.
Proof.
  intros Hdev Hlog Hrun.
  rewrite (run_1f1b_schedule_calls _ _ _ _ _ Hdev) in Hrun.
  apply Ok_inj in Hrun. subst d.
  rewrite all_reduce_logged, exec_all_logged. unfold logged at 1. cbn [dev].
  now rewrite Hlog.
Qed.

Lemma backward_after_forward_positions lag self r device d t0 i :
  nth_error (devices self) r = Some device ->
  stage device = 0 \/ stage device = 1 ->
  log device = [] ->
  run_1f1b_schedule lag self r t0 = Ok d ->
  0 <= i < micro_batches self ->
  forall p q,
    nth_error (logged d) p = Some (event_name (Forward i)) ->
    nth_error (logged d) q = Some (event_name (Backward i)) ->
    (p < q)%nat.
Proof.
  intros Hdev Hstage Hlog Hrun Hi p q.
  rewrite (run_1f1b_schedule_logged _ _ _ _ _ _ Hdev Hlog Hrun).
  apply all_before_nth.
  apply (all_before_map event_name _ _ _ all_reduce_names event_name_inj
           (event_name_not_all_reduce _)).
  now apply all_before_calls_1f1b.
Qed.

(** C6. In the sequence a device executes, for every micro-batch [i] of the
    batch, the first Backward(i) comes strictly after the first Forward(i);
    indeed every Backward(i) comes after every Forward(i). *)
Theorem backward_after_forward (lag : nat -> Z) (self : HybridTrainer) (r : nat)
        (device d : Device) (t0 i : Z) :
  nth_error (devices self) r = Some device ->
  stage device = 0 \/ stage device = 1 ->
  log device = [] ->
  run_1f1b_schedule lag self r t0 = Ok d ->
  0 <= i < micro_batches self ->
  exists pf pb,
    first_index String.eqb (event_name (Forward i)) (logged d) = Some pf
    /\ first_index String.eqb (event_name (Backward i)) (logged d) = Some pb
    /\ (pf < pb)%nat
    /\ forall p q,
         nth_error (logged d) p = Some (event_name (Forward i)) ->
         nth_error (logged d) q = Some (event_name (Backward i)) ->
         (p < q)%nat.
Proof.
  intros Hdev Hstage Hlog Hrun Hi.
  rewrite (run_1f1b_schedule_logged _ _ _ _ _ _ Hdev Hlog Hrun).
  pose proof (all_before_calls_1f1b (micro_batches self) (stage device) i Hstage Hi) as H.
  apply (all_before_map event_name _ _ _ all_reduce_names event_name_inj
           (event_name_not_all_reduce _)) in H.
  destruct (all_before_first String.eqb String.eqb_eq _ _ _ H) as (pf & pb & Hf & Hb & Hlt).
  exists pf, pb. repeat split; try assumption.
  intros p q. now apply all_before_nth.
Qed.

Lemma backward_after_forward_witness :
  exists pf pb,
    first_index String.eqb "Forward MB 2"%string
      (logged (thread_result ideal 8 0 (Device_init 0 0 4 2))) = Some pf
    /\ first_index String.eqb "Backward MB 2"%string
         (logged (thread_result ideal 8 0 (Device_init 0 0 4 2))) = Some pb
    /\ (pf < pb)%nat
    /\ forall p q,
         nth_error (logged (thread_result ideal 8 0 (Device_init 0 0 4 2))) p
         = Some "Forward MB 2"%string ->
         nth_error (logged (thread_result ideal 8 0 (Device_init 0 0 4 2))) q
         = Some "Backward MB 2"%string ->
         (p < q)%nat.
Proof.
  apply (backward_after_forward (overshoot ideal 0) HybridTrainer_init 0
           (Device_init 0 0 4 2) (thread_result ideal 8 0 (Device_init 0 0 4 2))
           (spawn ideal 0) 2).
  - reflexivity.
  - left. reflexivity.
  - reflexivity.
  - apply run_1f1b_schedule_init. reflexivity.
  - cbn. lia.
Defined.

(** ** Memory *)

Lemma memory_returns_to_zero_aux lag self r device d t0 :
  nth_error (devices self) r = Some device ->
  memory device = 0 ->
  run_1f1b_schedule lag self r t0 = Ok d ->
  memory (dev (schedule_branch lag (micro_batches self) (stage device)
                 {| dev := device; now := t0 |})) = 0
  /\ memory d = 0.
Proof.
  intros Hdev Hmem Hrun.
  assert (Hbody : memory (dev (schedule_branch lag (micro_batches self) (stage device)
                                 {| dev := device; now := t0 |})) = 0).
  { rewrite schedule_branch_calls, exec_all_memory.
    fold (net (calls_1f1b (micro_batches self) (stage device))).
    rewrite net_calls_1f1b. cbn [dev]. lia. }
  split; [exact Hbody|].
  unfold run_1f1b_schedule in Hrun. rewrite Hdev in Hrun.
  apply Ok_inj in Hrun. subst d. unfold andthen.
  now rewrite all_reduce_memory.
Qed.

(** C5. Each Forward adds 10 to the memory of the device and each Backward
    subtracts 10; the sequence a device executes has as many Forward as
    Backward calls, so a device that starts at 0 is back at 0 when its last
    Backward is over, and still is when [run_1f1b_schedule] returns. *)
Theorem memory_returns_to_zero (lag : nat -> Z) (self : HybridTrainer) (r : nat)
        (device d : Device) (t0 : Z) :
  nth_error (devices self) r = Some device ->
  memory device = 0 ->
  run_1f1b_schedule lag self r t0 = Ok d ->
  let calls := calls_1f1b (micro_batches self) (stage device) in
  (forall i s, memory (dev (forward lag i s)) = memory (dev s) + 10)
  /\ (forall i s, memory (dev (backward lag i s)) = memory (dev s) - 10)
  /\ List.length (filter is_forward calls) = List.length (filter is_backward calls)
  /\ memory (dev (schedule_branch lag (micro_batches self) (stage device)
                    {| dev := device; now := t0 |})) = 0
  /\ memory d = 0.
Proof.
  intros Hdev Hmem Hrun calls.
  assert (Hnet : net calls = 0) by apply net_calls_1f1b.
  split; [reflexivity|]. split; [reflexivity|]. split.
  - rewrite count_forward_backward in Hnet. lia.
  - exact (memory_returns_to_zero_aux lag self r device d t0 Hdev Hmem Hrun).
Qed.

Lemma memory_returns_to_zero_witness :
  memory (thread_result ideal 8 0 (Device_init 0 0 4 2)) = 0.
Proof.
  apply (memory_returns_to_zero (overshoot ideal 0) HybridTrainer_init 0
           (Device_init 0 0 4 2) (thread_result ideal 8 0 (Device_init 0 0 4 2))
           (spawn ideal 0)).
  - reflexivity.
  - reflexivity.
  - apply run_1f1b_schedule_init. reflexivity.
Defined.

(** Every device of the trainer is back at 0 after the run. *)
Lemma run_threads_memory (T : Timing) (r : nat) (d : Device) :
  nth_error (devices (run_threads T HybridTrainer_init)) r = Some d -> memory d = 0.
Proof.
  rewrite run_threads_init. intros H.
  destruct r as [|[|[|[|r]]]]; cbn in H;
    try (apply (f_equal (fun o => match o with Some x => memory x | None => 0 end)) in H;
         rewrite thread_result_memory in H; cbn in H; lia).
  destruct r; discriminate.
Qed.

(** C10. While a device that starts at 0 executes its sequence, its memory is
    between 0 and 20 after every call: never negative, never more than two
    activations.  This holds for the two stages and the 8 micro-batches of the
    trainer, and for any other value of [micro_batches]; the all-reduce that
    follows does not touch the memory. *)
Theorem memory_within_bounds (lag : nat -> Z) (self : HybridTrainer) (r : nat)
        (device d : Device) (t0 : Z) (k : nat) :
  nth_error (devices self) r = Some device ->
  memory device = 0 ->
  run_1f1b_schedule lag self r t0 = Ok d ->
  let calls := calls_1f1b (micro_batches self) (stage device) in
  0 <= memory (dev (exec_all lag (firstn k calls) {| dev := device; now := t0 |})) <= 20
  /\ 0 <= memory d <= 20.
Proof.
  intros Hdev Hmem Hrun calls. split.
  - apply within_bounds_firstn; cbn [dev]; rewrite Hmem; [lia|].
    apply within_bounds_calls_1f1b.
  - destruct (memory_returns_to_zero_aux lag self r device d t0 Hdev Hmem Hrun). lia.
Qed.

Lemma memory_within_bounds_witness :
  0 <= memory (dev (exec_all (overshoot ideal 0) (firstn 2 (calls_1f1b 8 0))
                      {| dev := Device_init 0 0 4 2; now := spawn ideal 0 |})) <= 20
  /\ 0 <= memory (thread_result ideal 8 0 (Device_init 0 0 4 2)) <= 20.
Proof.
  apply (memory_within_bounds (overshoot ideal 0) HybridTrainer_init 0
           (Device_init 0 0 4 2) (thread_result ideal 8 0 (Device_init 0 0 4 2))
           (spawn ideal 0) 2).
  - reflexivity.
  - reflexivity.
  - apply run_1f1b_schedule_init. reflexivity.
Defined.

(** The bound 20 is reached: after its second call the stage-0 device holds
    two activations. *)
Lemma memory_peak_reached :
  memory (dev (exec_all (fun _ => 0) (firstn 2 (calls_1f1b 8 0))
                 {| dev := Device_init 0 0 4 2; now := 0 |})) = 20.
Proof. reflexivity. Qed.

(** ** The sequence of the first stage *)

(** C1.  The claim asks for exactly [2 * M] calls, one Forward and one
    Backward per micro-batch.  With the trainer's own values (2 stages, 8
    micro-batches) the device of rank 0, on stage 0, executes 18 calls:
    Forward 2 and Backward 1 are issued twice, once before the loop and once
    more by its first iteration. *)
Theorem stage0_repeats_forward_2 (T : Timing) :
  calls_1f1b 8 0
  = [ Forward 0; Forward 1; Backward 0; Forward 2; Backward 1;
      Forward 2; Backward 1; Forward 3; Backward 2; Forward 4; Backward 3;
      Forward 5; Backward 4; Forward 6; Backward 5; Forward 7; Backward 6;
      Backward 7 ]
  /\ List.length (calls_1f1b 8 0) = 18%nat
  /\ occurrences (Forward 2) (calls_1f1b 8 0) = 2%nat
  /\ occurrences (Backward 1) (calls_1f1b 8 0) = 2%nat
  /\ List.length (filter is_forward (calls_1f1b 8 0)) = 9%nat
  /\ List.length (filter is_backward (calls_1f1b 8 0)) = 9%nat
  /\ exists d,
       nth_error (devices (run_threads T HybridTrainer_init)) 0 = Some d
       /\ logged d
          = [ "Forward MB 0"; "Forward MB 1"; "Backward MB 0"; "Forward MB 2";
              "Backward MB 1"; "Forward MB 2"; "Backward MB 1"; "Forward MB 3";
              "Backward MB 2"; "Forward MB 4"; "Backward MB 3"; "Forward MB 5";
              "Backward MB 4"; "Forward MB 6"; "Backward MB 5"; "Forward MB 7";
              "Backward MB 6"; "Backward MB 7";
              "All-Reduce Step 1"; "All-Reduce Step 2" ]%string.
Proof.
  repeat (split; [reflexivity|]).
  rewrite run_threads_init. eexists. split; [reflexivity|].
  now rewrite thread_result_logged.
Qed.

(** The repetition does not depend on the number of micro-batches: for every
    [M >= 2] the first stage issues two calls more than [2 * M]. *)
Lemma stage0_two_calls_too_many (M : Z) :
  2 <= M -> Z.of_nat (List.length (calls_1f1b M 0)) = 2 * M + 2.
Proof.
  intros H. rewrite calls_1f1b_stage0, !length_app.
  assert (E : forall xs : list Z,
             List.length (flat_map (fun i => [Forward i; Backward (i - 1)]) xs)
             = (2 * List.length xs)%nat).
  { induction xs as [|x xs IH]; [reflexivity|].
    cbn [flat_map app List.length]. rewrite IH. lia. }
  rewrite E. unfold range. rewrite length_map, length_seq.
  cbn [List.length]. lia.
Qed.

(** The last stage has no such repetition: for every [M >= 2] its sequence
    is one Forward/Backward pair per micro-batch, in order. *)
Lemma stage1_one_pair_each (M : Z) :
  2 <= M ->
  calls_1f1b M 1 = flat_map (fun i => [Forward i; Backward i]) (range 0 M).
Proof.
  intros H. rewrite calls_1f1b_stage1.
  rewrite (range_app 0 2 M) by lia. rewrite flat_map_app. reflexivity.
Qed.

(** ** The scenario of two stages and eight micro-batches *)





(** ** Dependencies between stages *)

Lemma run_1f1b_schedule_sequential lag self r t0 device d :
  never_early lag ->
  nth_error (devices self) r = Some device -> log device = [] ->
  run_1f1b_schedule lag self r t0 = Ok d ->
  sequential (log d).
Proof.
  intros Hlag Hdev Hlog Hrun.
  rewrite (run_1f1b_schedule_calls _ _ _ _ _ Hdev) in Hrun.
  apply Ok_inj in Hrun. subst d.
  apply (all_reduce_on_time _ Hlag). apply (exec_all_on_time _ Hlag).
  split; cbn [dev now]; rewrite Hlog; constructor.
Qed.

(** The first call of a device starts when its thread does, whatever the
    other threads are doing. *)
Lemma first_forward_start (T : Timing) (M : Z) (r : nat) (device : Device) :
  stage device = 0 \/ stage device = 1 -> log device = [] ->
  exists rest,
    log (thread_result T M r device)
    = Event.mk (rank device) "Forward MB 0" (spawn T r) 50 :: rest.
Proof.
  intros Hstage Hlog.
  assert (Happ : forall lag cs s, exists l, log (dev (exec_all lag cs s)) = log (dev s) ++ l).
  { intros lag cs. induction cs as [|c cs IH]; intros s.
    - exists []. cbn. now rewrite app_nil_r.
    - rewrite exec_all_cons. destruct (IH (exec lag c s)) as [l Hl].
      rewrite Hl, exec_log, <- app_assoc. eexists. reflexivity. }
  assert (Hcalls : exists cs, calls_1f1b M (stage device) = Forward 0 :: cs).
  { destruct Hstage as [-> | ->];
      [rewrite calls_1f1b_stage0|rewrite calls_1f1b_stage1]; eexists; reflexivity. }
  destruct Hcalls as [cs Hcs].
  unfold thread_result. rewrite Hcs, all_reduce_unfold, exec_all_cons.
  unfold log_event at 1 2. cbn [dev log set_log].
  destruct (Happ (overshoot T r) cs
              (exec (overshoot T r) (Forward 0) {| dev := device; now := spawn T r |}))
    as [l Hl].
  rewrite Hl, exec_log. cbn [dev now]. rewrite Hlog.
  cbn [app event_name cost]. eexists. reflexivity.
Qed.

(** C2, as stated, fails: the code has no channel between the stages.  When
    the four threads start together and every sleep is exact, Forward(0) on
    stage 1 (rank 1) starts at the very instant Forward(0) starts on stage 0
    (rank 0), 50 ms before the latter is over; and Backward(0) on stage 0
    starts 30 ms before Backward(0) on stage 1 is over. *)
Lemma stages_not_synchronised :
  exists d0 d1 f0 f1 b0 b1,
    nth_error (devices (run_threads ideal HybridTrainer_init)) 0 = Some d0
    /\ nth_error (devices (run_threads ideal HybridTrainer_init)) 1 = Some d1
    /\ stage d0 = 0 /\ stage d1 = 1
    /\ In f0 (log d0) /\ Event.event f0 = "Forward MB 0"%string
    /\ In f1 (log d1) /\ Event.event f1 = "Forward MB 0"%string
    /\ Event.start f1 < Event.start f0 + Event.duration f0
    /\ In b0 (log d0) /\ Event.event b0 = "Backward MB 0"%string
    /\ In b1 (log d1) /\ Event.event b1 = "Backward MB 0"%string
    /\ Event.start b0 < Event.start b1 + Event.duration b1.
Proof.
  rewrite run_threads_init.
  eexists _, _, (Event.mk 0 "Forward MB 0" 0 50), (Event.mk 1 "Forward MB 0" 0 50),
    (Event.mk 0 "Backward MB 0" 100 80), (Event.mk 1 "Backward MB 0" 50 80).
  split; [reflexivity|]. split; [reflexivity|].
  repeat split; try (vm_compute; tauto); cbn; lia.
Qed.

(** C2, amended.  The only ordering the code enforces is inside one device,
    whose calls run one after the other: for every micro-batch [i], every
    Backward(i) event of a device starts when every Forward(i) event of the
    same device is over.  Nothing orders the events of different stages. *)
Theorem backward_starts_after_own_forward (lag : nat -> Z) (self : HybridTrainer)
        (r : nat) (device d : Device) (t0 i : Z) (ef eb : Event.t) :
  never_early lag ->
  nth_error (devices self) r = Some device ->
  stage device = 0 \/ stage device = 1 ->
  log device = [] ->
  run_1f1b_schedule lag self r t0 = Ok d ->
  0 <= i < micro_batches self ->
  In ef (log d) -> Event.event ef = event_name (Forward i) ->
  In eb (log d) -> Event.event eb = event_name (Backward i) ->
  Event.start ef + Event.duration ef <= Event.start eb.
Proof.
  intros Hlag Hdev Hstage Hlog Hrun Hi Hef Hnf Heb Hnb.
  pose proof (backward_after_forward_positions lag self r device d t0 i
                Hdev Hstage Hlog Hrun Hi) as Hpos.
  apply In_nth_error in Hef as [p Hp]. apply In_nth_error in Heb as [q Hq].
  assert (Hpq : (p < q)%nat).
  { apply Hpos; unfold logged; erewrite map_nth_error by eassumption; congruence. }
  exact (StronglySorted_nth follows (log d)
           (run_1f1b_schedule_sequential lag self r t0 device d Hlag Hdev Hlog Hrun)
           p q ef eb Hpq Hp Hq).
Qed.

Lemma backward_starts_after_own_forward_witness :
  Event.start (Event.mk 0 "Forward MB 2" 310 50)
  + Event.duration (Event.mk 0 "Forward MB 2" 310 50)
  <= Event.start (Event.mk 0 "Backward MB 2" 490 80).
Proof.
  apply (backward_starts_after_own_forward (overshoot ideal 0) HybridTrainer_init 0
           (Device_init 0 0 4 2) (thread_result ideal 8 0 (Device_init 0 0 4 2))
           (spawn ideal 0) 2).
  - intros k. cbn. lia.
  - reflexivity.
  - left. reflexivity.
  - reflexivity.
  - apply run_1f1b_schedule_init. reflexivity.
  - cbn. lia.
  - vm_compute. tauto.
  - reflexivity.
  - vm_compute. tauto.
  - reflexivity.
Defined.

(** ** The ring all-reduce *)

Lemma event_name_not_step (c : Instruction) : is_all_reduce_step (event_name c) = false.
Proof. destruct c; reflexivity. Qed.

Lemma filter_steps_calls (cs : list Instruction) :
  filter is_all_reduce_step (map event_name cs) = [].
Proof.
  induction cs as [|c cs IH]; [reflexivity|].
  cbn [map filter]. now rewrite event_name_not_step.
Qed.

(** Whatever the trainer, a device logs exactly two all-reduce steps. *)
Lemma run_1f1b_schedule_steps lag self r t0 device d :
  nth_error (devices self) r = Some device -> log device = [] ->
  run_1f1b_schedule lag self r t0 = Ok d ->
  all_reduce_steps d = 2%nat.
Proof.
  intros Hdev Hlog Hrun. unfold all_reduce_steps.
  rewrite (run_1f1b_schedule_logged _ _ _ _ _ _ Hdev Hlog Hrun).
  now rewrite filter_app, filter_steps_calls.
Qed.

Lemma exec_all_stage lag cs :
  forall s, stage (dev (exec_all lag cs s)) = stage (dev s).
Proof.
  induction cs as [|c cs IH]; intros s; [reflexivity|].
  rewrite exec_all_cons, IH. apply exec_stage.
Qed.


Lemma delayed_never_early (r : nat) : never_early (overshoot delayed r).
Proof.
  intros k. cbn. destruct ((r =? 2) && (k =? 0))%nat; lia.
Qed.




(** ** Termination of a device *)

Lemma length_logged (d : Device) : List.length (logged d) = List.length (log d).
Proof. unfold logged. apply length_map. Qed.

(** C8, as stated, fails: no wait and no error of that kind exist in the
    code.  On a topology without any stage-0 device, rank 0 (stage 1) runs
    its 16 calls and its 2 all-reduce steps and returns normally, and the run
    prints a complete timeline of 4 * 18 rows. *)
Lemma headless_run_completes :
  (exists d,
      run_1f1b_schedule (fun _ => 0) headless 0 0 = Ok d
      /\ List.length (log d) = 18%nat)
  /\ (exists rows,
         snd (run ideal headless) = Ok rows /\ List.length rows = 72%nat).
Proof.
  split; eexists; split; vm_compute; reflexivity.
Qed.

(** C8, amended.  The code performs no dependency wait at all, so no run can
    block on one: for every topology and every rank in range,
    [run_1f1b_schedule] returns normally after logging all the calls of the
    stage and the two all-reduce steps.  The only error is the [IndexError]
    of a rank that is out of range. *)
Theorem run_1f1b_schedule_returns (lag : nat -> Z) (self : HybridTrainer)
        (r : nat) (t0 : Z) :
  (r < List.length (devices self))%nat ->
  exists device d,
    nth_error (devices self) r = Some device
    /\ run_1f1b_schedule lag self r t0 = Ok d
    /\ List.length (log d)
       = (List.length (log device)
          + List.length (calls_1f1b (micro_batches self) (stage device)) + 2)%nat.
Proof.
  intros Hr.
  destruct (nth_error (devices self) r) as [device|] eqn:Hdev.
  - exists device. eexists. split; [reflexivity|].
    split; [exact (run_1f1b_schedule_calls _ _ _ _ _ Hdev)|].
    rewrite <- !length_logged, all_reduce_logged, exec_all_logged.
    rewrite !length_app, length_map. cbn [dev all_reduce_names List.length]. lia.
  - apply nth_error_None in Hdev. lia.
Qed.

Lemma run_1f1b_schedule_returns_witness :
  exists device d,
    nth_error (devices headless) 0 = Some device
    /\ run_1f1b_schedule (fun _ => 0) headless 0 0 = Ok d
    /\ List.length (log d)
       = (List.length (log device)
          + List.length (calls_1f1b (micro_batches headless) (stage device)) + 2)%nat.
Proof.
  apply (run_1f1b_schedule_returns (fun _ => 0) headless 0 0).
  cbn. lia.
Defined.

Lemma run_1f1b_schedule_out_of_range (lag : nat -> Z) (self : HybridTrainer)
      (r : nat) (t0 : Z) :
  (List.length (devices self) <= r)%nat ->
  run_1f1b_schedule lag self r t0 = Raise IndexError.
Proof.
  intros Hr. unfold run_1f1b_schedule.
  apply nth_error_None in Hr. now rewrite Hr.
Qed.

(** ** Reproducibility *)

Section Shift.

Variable lag : nat -> Z.
Variable c : Z.

Lemma log_event_shift (name : string) (d : Z) (s : Thread) :
  log_event lag name d (shift_thread c s) = shift_thread c (log_event lag name d s).
Proof.
  unfold log_event, shift_thread, shift_device, set_log. cbn.
  rewrite map_app, length_map. cbn [map shift_event Event.rank Event.event
                                     Event.start Event.duration].
  f_equal. lia.
Qed.

Lemma add_memory_shift (m : Z) (s : Thread) :
  add_memory m (shift_thread c s) = shift_thread c (add_memory m s).
Proof. reflexivity. Qed.

Lemma exec_shift (i : Instruction) (s : Thread) :
  exec lag i (shift_thread c s) = shift_thread c (exec lag i s).
Proof.
  destruct i; cbn [exec]; unfold forward, backward, andthen;
    now rewrite log_event_shift, add_memory_shift.
Qed.

Lemma exec_all_shift (cs : list Instruction) :
  forall s, exec_all lag cs (shift_thread c s) = shift_thread c (exec_all lag cs s).
Proof.
  induction cs as [|i cs IH]; intros s; [reflexivity|].
  now rewrite !exec_all_cons, exec_shift, IH.
Qed.

Lemma all_reduce_shift (s : Thread) :
  all_reduce lag (shift_thread c s) = shift_thread c (all_reduce lag s).
Proof. now rewrite !all_reduce_unfold, !log_event_shift. Qed.

Lemma insert_by_start_shift (e : Event.t) (l : list Event.t) :
  insert_by_start (shift_event c e) (map (shift_event c) l)
  = map (shift_event c) (insert_by_start e l).
Proof.
  induction l as [|x l IH]; [reflexivity|].
  cbn [map insert_by_start shift_event Event.start].
  replace (Event.start e + c <=? Event.start x + c)
    with (Event.start e <=? Event.start x)
    by (destruct (Z.leb_spec (Event.start e) (Event.start x));
        symmetry; [apply Z.leb_le|apply Z.leb_gt]; lia).
  destruct (Event.start e <=? Event.start x); [reflexivity|].
  cbn [map]. f_equal. exact IH.
Qed.

Lemma sort_by_start_shift (l : list Event.t) :
  sort_by_start (map (shift_event c) l) = map (shift_event c) (sort_by_start l).
Proof.
  induction l as [|e l IH]; [reflexivity|].
  cbn [map sort_by_start]. now rewrite IH, insert_by_start_shift.
Qed.

Lemma print_rows_shift (t0 : Z) (evs : list Event.t) :
  print_rows (t0 + c) (map (shift_event c) evs) = print_rows t0 evs.
Proof.
  induction evs as [|e evs IH]; [reflexivity|].
  cbn [map print_rows shift_event Event.rank Event.event Event.start].
  rewrite IH.
  replace (Event.start e + c - (t0 + c)) with (Event.start e - t0) by lia.
  reflexivity.
Qed.

(** The printed timeline only depends on the collected events, and not on a
    common offset of their start times. *)
Lemma generate_timeline_shift (self self' : HybridTrainer) :
  all_events self' = map (shift_event c) (all_events self) ->
  generate_timeline self' = generate_timeline self.
Proof.
  intros H. unfold generate_timeline. rewrite H, sort_by_start_shift.
  destruct (sort_by_start (all_events self)) as [|e0 rest]; [reflexivity|].
  cbn [map]. change (shift_event c e0 :: map (shift_event c) rest)
    with (map (shift_event c) (e0 :: rest)).
  cbn [shift_event Event.start]. apply print_rows_shift.
Qed.

End Shift.

Lemma thread_result_shift (c : Z) (T : Timing) (M : Z) (r : nat) (device : Device) :
  log device = [] ->
  thread_result (shift_timing c T) M r device = shift_device c (thread_result T M r device).
Proof.
  intros Hlog. unfold thread_result. cbn [shift_timing overshoot spawn].
  replace {| dev := device; now := spawn T r + c |}
    with (shift_thread c {| dev := device; now := spawn T r |}).
  - now rewrite exec_all_shift, all_reduce_shift.
  - unfold shift_thread, shift_device, set_log. cbn [dev now]. rewrite Hlog.
    destruct device; cbn in *; now subst.
Qed.

Lemma all_events_shift (c : Z) (T : Timing) :
  all_events (run_threads (shift_timing c T) HybridTrainer_init)
  = map (shift_event c) (all_events (run_threads T HybridTrainer_init)).
Proof.
  unfold all_events. rewrite !run_threads_init. cbn [flat_map].
  rewrite !thread_result_shift by reflexivity.
  rewrite !map_app. reflexivity.
Qed.

Lemma exec_all_untimed lag cs :
  forall s, map untimed (log (dev (exec_all lag cs s)))
            = map untimed (log (dev s))
              ++ map (fun i => (rank (dev s), event_name i, cost i)) cs.
Proof.
  induction cs as [|i cs IH]; intros s.
  - cbn. now rewrite app_nil_r.
  - rewrite exec_all_cons, IH, exec_log, exec_rank, map_app, <- app_assoc. reflexivity.
Qed.

(** What a thread logs, apart from the start times, does not depend on the
    timing. *)
Lemma thread_result_untimed (T1 T2 : Timing) (M : Z) (r : nat) (device : Device) :
  map untimed (log (thread_result T1 M r device))
  = map untimed (log (thread_result T2 M r device)).
Proof.
  unfold thread_result. rewrite !all_reduce_unfold. unfold log_event.
  cbn [dev log set_log rank]. rewrite !map_app, !exec_all_untimed, !exec_all_rank.
  reflexivity.
Qed.

(** C9, as stated, fails: start times are read from the wall clock, and the
    same configuration gives different relative timelines when the sleeps do
    not overshoot alike.  With one overshoot of 1 ms after the first call of
    rank 0, the fifth row is no longer Forward(1) of rank 0 at offset 50 but
    Backward(0) of rank 1. *)
Lemma timeline_depends_on_timing :
  generate_timeline (run_threads ideal HybridTrainer_init)
  <> generate_timeline (run_threads jitter HybridTrainer_init)
  /\ exists rows rows',
       generate_timeline (run_threads ideal HybridTrainer_init) = Ok rows
       /\ generate_timeline (run_threads jitter HybridTrainer_init) = Ok rows'
       /\ nth_error rows 4
          = Some {| t_rel := 50; cols := ["Forward MB 1"; ""; ""; ""]%string |}
       /\ nth_error rows' 4
          = Some {| t_rel := 50; cols := [""; "Backward MB 0"; ""; ""]%string |}.
Proof.
  assert (H : exists rows rows',
             generate_timeline (run_threads ideal HybridTrainer_init) = Ok rows
             /\ generate_timeline (run_threads jitter HybridTrainer_init) = Ok rows'
             /\ nth_error rows 4
                = Some {| t_rel := 50; cols := ["Forward MB 1"; ""; ""; ""]%string |}
             /\ nth_error rows' 4
                = Some {| t_rel := 50; cols := [""; "Backward MB 0"; ""; ""]%string |}).
  { eexists _, _. split; [vm_compute; reflexivity|].
    split; [vm_compute; reflexivity|]. split; reflexivity. }
  split; [|exact H].
  destruct H as (rows & rows' & E & E' & Hr & Hr'). rewrite E, E'.
  intros Heq. apply Ok_inj in Heq. subst rows'. rewrite Hr in Hr'. discriminate Hr'.
Qed.

(** C9, amended.  Two runs of the same configuration log, on every device,
    the same events with the same durations in the same order; and two runs
    whose timings differ only by a constant offset of the clock print the same
    timeline.  Start times themselves come from the wall clock: offsets and
    global order are reproducible only as far as the timing is. *)
Theorem timeline_reproducible_up_to_offset (T1 T2 : Timing) (c : Z) :
  (forall r d1 d2,
      nth_error (devices (run_threads T1 HybridTrainer_init)) r = Some d1 ->
      nth_error (devices (run_threads T2 HybridTrainer_init)) r = Some d2 ->
      map untimed (log d1) = map untimed (log d2))
  /\ snd (run (shift_timing c T1) HybridTrainer_init) = snd (run T1 HybridTrainer_init).
Proof.
  split.
  - intros r d1 d2. rewrite !run_threads_init. intros H1 H2.
    destruct r as [|[|[|[|r]]]]; cbn in H1, H2; try (destruct r; discriminate);
      apply Some_inj in H1; apply Some_inj in H2; subst d1 d2;
      apply thread_result_untimed.
  - unfold run. cbn [snd].
    apply (generate_timeline_shift c). apply all_events_shift.
Qed.


(** * Further properties of the code *)

(** ** What a device logs *)

Lemma run_1f1b_schedule_log (lag : nat -> Z) (self : HybridTrainer) (r : nat)
      (device d : Device) (t0 : Z) :
  nth_error (devices self) r = Some device ->
  run_1f1b_schedule lag self r t0 = Ok d ->
  exists new,
    log d = log device ++ new
    /\ map untimed new
       = expected_entries (rank device) (calls_1f1b (micro_batches self) (stage device)).
Proof.
  intros Hdev Hrun.
  rewrite (run_1f1b_schedule_calls _ _ _ _ _ Hdev) in Hrun.
  apply Ok_inj in Hrun. subst d.
  assert (Happ : forall cs s, exists l,
             log (dev (exec_all lag cs s)) = log (dev s) ++ l
             /\ map untimed l = map (fun c => (rank (dev s), event_name c, cost c)) cs).
  { induction cs as [|c cs IH]; intros s.
    - exists []. split; [cbn; now rewrite app_nil_r|reflexivity].
    - rewrite exec_all_cons. destruct (IH (exec lag c s)) as (l & Hl & Hu).
      rewrite Hl, exec_log, <- app_assoc. eexists. split; [reflexivity|].
      cbn [app map]. rewrite Hu, exec_rank. reflexivity. }
  destruct (Happ (calls_1f1b (micro_batches self) (stage device))
              {| dev := device; now := t0 |}) as (l & Hl & Hu).
  rewrite all_reduce_unfold. unfold log_event. cbn [dev log set_log rank now].
  rewrite Hl, exec_all_rank. cbn [dev]. rewrite <- !app_assoc.
  eexists. split; [reflexivity|].
  unfold expected_entries. rewrite map_app, Hu. reflexivity.
Qed.

Lemma exec_all_sizes (lag : nat -> Z) (cs : list Instruction) :
  forall s, world_size (dev (exec_all lag cs s)) = world_size (dev s)
            /\ pipeline_depth (dev (exec_all lag cs s)) = pipeline_depth (dev s).
Proof.
  induction cs as [|c cs IH]; intros s; [split; reflexivity|].
  rewrite exec_all_cons. destruct (IH (exec lag c s)) as [Hw Hp].
  rewrite Hw, Hp. destruct c; split; reflexivity.
Qed.

Lemma run_1f1b_schedule_frame (lag : nat -> Z) (self : HybridTrainer) (r : nat)
      (device d : Device) (t0 : Z) :
  nth_error (devices self) r = Some device ->
  run_1f1b_schedule lag self r t0 = Ok d ->
  rank d = rank device /\ stage d = stage device
  /\ world_size d = world_size device /\ pipeline_depth d = pipeline_depth device.
Proof.
  intros Hdev Hrun.
  rewrite (run_1f1b_schedule_calls _ _ _ _ _ Hdev) in Hrun.
  apply Ok_inj in Hrun. subst d.
  rewrite all_reduce_unfold. unfold log_event.
  cbn [dev set_log rank stage world_size pipeline_depth].
  rewrite exec_all_rank, exec_all_stage.
  destruct (exec_all_sizes lag (calls_1f1b (micro_batches self) (stage device))
              {| dev := device; now := t0 |}) as [Hw Hp].
  rewrite Hw, Hp. repeat split.
Qed.

(** X1. [run_1f1b_schedule] only appends to the log of its device: the
    entries that were there stay, in place, and the new entries are one per
    call, named after the call and with its duration (50 for a Forward, 80 for
    a Backward), followed by the two all-reduce steps of 20, every one of them
    tagged with the rank of the device.  The rank, stage, world size and
    pipeline depth of the device are left as they were. *)
Theorem log_is_append_only (lag : nat -> Z) (self : HybridTrainer) (r : nat)
        (device d : Device) (t0 : Z) :
  nth_error (devices self) r = Some device ->
  run_1f1b_schedule lag self r t0 = Ok d ->
  (exists new,
      log d = log device ++ new
      /\ map untimed new
         = expected_entries (rank device) (calls_1f1b (micro_batches self) (stage device)))
  /\ rank d = rank device /\ stage d = stage device
  /\ world_size d = world_size device /\ pipeline_depth d = pipeline_depth device.
Proof.
  intros Hdev Hrun. split.
  - exact (run_1f1b_schedule_log lag self r device d t0 Hdev Hrun).
  - exact (run_1f1b_schedule_frame lag self r device d t0 Hdev Hrun).
Qed.

Lemma log_is_append_only_witness :
  (exists new,
      log (thread_result ideal 8 1 (Device_init 1 1 4 2))
      = log (Device_init 1 1 4 2) ++ new
      /\ map untimed new
         = expected_entries (rank (Device_init 1 1 4 2))
             (calls_1f1b (micro_batches HybridTrainer_init) (stage (Device_init 1 1 4 2))))
  /\ rank (thread_result ideal 8 1 (Device_init 1 1 4 2)) = rank (Device_init 1 1 4 2)
  /\ stage (thread_result ideal 8 1 (Device_init 1 1 4 2)) = stage (Device_init 1 1 4 2)
  /\ world_size (thread_result ideal 8 1 (Device_init 1 1 4 2))
     = world_size (Device_init 1 1 4 2)
  /\ pipeline_depth (thread_result ideal 8 1 (Device_init 1 1 4 2))
     = pipeline_depth (Device_init 1 1 4 2).
Proof.
  apply (log_is_append_only (overshoot ideal 1) HybridTrainer_init 1
           (Device_init 1 1 4 2) (thread_result ideal 8 1 (Device_init 1 1 4 2))
           (spawn ideal 1)).
  - reflexivity.
  - apply run_1f1b_schedule_init. reflexivity.
Defined.

(** ** Start times within a device *)

Lemma expected_entries_duration (r : nat) (cs : list Instruction) (x : nat * string * Z) :
  In x (expected_entries r cs) -> snd x = 50 \/ snd x = 80 \/ snd x = 20.
Proof.
  unfold expected_entries. intros H. apply in_app_or in H as [H|H].
  - apply in_map_iff in H as (c & <- & _). destruct c; cbn; auto.
  - destruct H as [<-|[<-|[]]]; cbn; auto.
Qed.

Lemma log_event_not_before (lag : nat -> Z) (t0 : Z) (name : string) (d : Z) (s : Thread) :
  never_early lag -> 0 <= d ->
  t0 <= now s /\ Forall (fun e => t0 <= Event.start e) (log (dev s)) ->
  t0 <= now (log_event lag name d s)
  /\ Forall (fun e => t0 <= Event.start e) (log (dev (log_event lag name d s))).
Proof.
  intros Hlag Hd [Hnow Hall]. unfold log_event. cbn [dev now log set_log].
  pose proof (Hlag (List.length (log (dev s)))). split; [lia|].
  apply Forall_app. split; [exact Hall|]. constructor; [cbn; lia|constructor].
Qed.

Lemma exec_all_not_before (lag : nat -> Z) (t0 : Z) (cs : list Instruction) :
  never_early lag ->
  forall s,
    t0 <= now s /\ Forall (fun e => t0 <= Event.start e) (log (dev s)) ->
    t0 <= now (exec_all lag cs s)
    /\ Forall (fun e => t0 <= Event.start e) (log (dev (exec_all lag cs s))).
Proof.
  intros Hlag. induction cs as [|c cs IH]; intros s H; [exact H|].
  rewrite exec_all_cons. apply IH.
  destruct c; cbn [exec]; unfold forward, backward, andthen, add_memory;
    cbn [dev now set_memory log]; apply log_event_not_before; (assumption || lia).
Qed.

(** X2. A device logs its events one after the other: when no sleep returns
    early, every event of the log starts at or after the instant the thread
    started, each later event starts only when each earlier one is over, and
    start times are strictly increasing along the log. *)
Theorem log_starts_increase (lag : nat -> Z) (self : HybridTrainer) (r : nat)
        (device d : Device) (t0 : Z) (p q : nat) (e1 e2 : Event.t) :
  never_early lag ->
  nth_error (devices self) r = Some device ->
  log device = [] ->
  run_1f1b_schedule lag self r t0 = Ok d ->
  (p < q)%nat ->
  nth_error (log d) p = Some e1 ->
  nth_error (log d) q = Some e2 ->
  t0 <= Event.start e1
  /\ Event.start e1 + Event.duration e1 <= Event.start e2
  /\ Event.start e1 < Event.start e2.
Proof.
  intros Hlag Hdev Hlog Hrun Hpq Hp Hq.
  pose proof (run_1f1b_schedule_sequential lag self r t0 device d Hlag Hdev Hlog Hrun) as Hseq.
  pose proof (StronglySorted_nth follows (log d) Hseq p q e1 e2 Hpq Hp Hq) as Hfol.
  destruct (run_1f1b_schedule_log lag self r device d t0 Hdev Hrun) as (new & Hnew & Hu).
  rewrite Hlog in Hnew. cbn [app] in Hnew.
  assert (Hdur : 0 < Event.duration e1).
  { apply nth_error_In in Hp. rewrite Hnew in Hp.
    apply (in_map untimed) in Hp. rewrite Hu in Hp.
    apply expected_entries_duration in Hp. cbn in Hp. lia. }
  assert (Hstart : t0 <= Event.start e1).
  { rewrite (run_1f1b_schedule_calls _ _ _ _ _ Hdev) in Hrun.
    apply Ok_inj in Hrun. subst d.
    rewrite all_reduce_unfold in Hp.
    assert (Hinv : t0 <= now (exec_all lag (calls_1f1b (micro_batches self) (stage device))
                                {| dev := device; now := t0 |})
                   /\ Forall (fun e => t0 <= Event.start e)
                        (log (dev (exec_all lag (calls_1f1b (micro_batches self) (stage device))
                                     {| dev := device; now := t0 |})))).
    { apply exec_all_not_before; [exact Hlag|]. cbn [dev now]. rewrite Hlog.
      split; [lia|constructor]. }
    apply (log_event_not_before lag t0 "All-Reduce Step 1" 20 _ Hlag) in Hinv; [|lia].
    apply (log_event_not_before lag t0 "All-Reduce Step 2" 20 _ Hlag) in Hinv; [|lia].
    destruct Hinv as [_ Hall]. rewrite Forall_forall in Hall.
    apply Hall. eapply nth_error_In. exact Hp. }
  unfold follows in Hfol. lia.
Qed.

Lemma log_starts_increase_witness :
  0 <= Event.start (Event.mk 1 "Forward MB 0" 0 50)
  /\ Event.start (Event.mk 1 "Forward MB 0" 0 50)
     + Event.duration (Event.mk 1 "Forward MB 0" 0 50)
     <= Event.start (Event.mk 1 "Backward MB 0" 50 80)
  /\ Event.start (Event.mk 1 "Forward MB 0" 0 50)
     < Event.start (Event.mk 1 "Backward MB 0" 50 80).
Proof.
  apply (log_starts_increase (overshoot ideal 1) HybridTrainer_init 1
           (Device_init 1 1 4 2) (thread_result ideal 8 1 (Device_init 1 1 4 2))
           (spawn ideal 1) 0 1).
  - intros k. cbn. lia.
  - reflexivity.
  - reflexivity.
  - apply run_1f1b_schedule_init. reflexivity.
  - lia.
  - vm_compute. reflexivity.
  - vm_compute. reflexivity.
Defined.

(** ** The threads of [run] do not interfere *)

Lemma length_set_nth (l : list Device) (i : nat) (d : Device) :
  List.length (set_nth l i d) = List.length l.
Proof.
  revert i. induction l as [|x l IH]; intros [|i]; cbn; auto.
Qed.

Lemma thread_body_length T self i :
  List.length (devices (thread_body T self i)) = List.length (devices self).
Proof.
  unfold thread_body. destruct (run_1f1b_schedule _ _ _ _); [|reflexivity].
  cbn [devices]. apply length_set_nth.
Qed.

Lemma thread_body_result T self i d :
  run_1f1b_schedule (overshoot T i) self i (spawn T i) = Ok d ->
  nth_error (devices (thread_body T self i)) i = Some d.
Proof.
  intros H. unfold thread_body. rewrite H. cbn [devices].
  unfold run_1f1b_schedule in H.
  destruct (nth_error (devices self) i) as [device|] eqn:E; [|discriminate].
  now apply nth_error_set_nth_same with (x := device).
Qed.

(** The call of a thread only reads the device of its rank and
    [micro_batches]. *)
Lemma run_1f1b_schedule_local lag self self' r t0 :
  nth_error (devices self') r = nth_error (devices self) r ->
  micro_batches self' = micro_batches self ->
  run_1f1b_schedule lag self' r t0 = run_1f1b_schedule lag self r t0.
Proof.
  intros Hd Hm. unfold run_1f1b_schedule. now rewrite Hd, Hm.
Qed.

(** X3. The four threads of [run] are isolated from each other: for each of
    the ranks 0 to 3, the device found at that rank after the run is exactly
    the one that [run_1f1b_schedule] returns for that rank on the trainer as it
    was before the run, whatever the other three threads did and whether or not
    they failed. *)
Theorem run_threads_isolated (T : Timing) (self : HybridTrainer) (r : nat) (d : Device) :
  (r < 4)%nat ->
  run_1f1b_schedule (overshoot T r) self r (spawn T r) = Ok d ->
  nth_error (devices (run_threads T self)) r = Some d.
Proof.
  intros Hr Hrun. unfold run_threads. cbn [seq fold_left].
  destruct r as [|[|[|[|r]]]]; try lia.
  - rewrite !thread_body_other by lia. now apply thread_body_result.
  - rewrite !thread_body_other by lia. apply thread_body_result.
    rewrite <- Hrun. apply run_1f1b_schedule_local.
    + now rewrite !thread_body_other by lia.
    + now rewrite !thread_body_micro_batches.
  - rewrite !thread_body_other by lia. apply thread_body_result.
    rewrite <- Hrun. apply run_1f1b_schedule_local.
    + now rewrite !thread_body_other by lia.
    + now rewrite !thread_body_micro_batches.
  - apply thread_body_result.
    rewrite <- Hrun. apply run_1f1b_schedule_local.
    + now rewrite !thread_body_other by lia.
    + now rewrite !thread_body_micro_batches.
Qed.

Lemma run_threads_isolated_witness :
  nth_error (devices (run_threads ideal three_stages)) 2
  = Some (dev (all_reduce (overshoot ideal 2)
                 {| dev := Device_init 2 2 3 3; now := spawn ideal 2 |})).
Proof.
  apply (run_threads_isolated ideal three_stages 2).
  - lia.
  - reflexivity.
Defined.

(** X4. [run] starts exactly four threads, for ranks 0 to 3: a device listed
    at index 4 or beyond is never run and is found unchanged after the run,
    and the run neither adds nor removes devices nor changes
    [micro_batches]. *)
Theorem run_threads_only_four (T : Timing) (self : HybridTrainer) (r : nat) :
  (4 <= r)%nat ->
  nth_error (devices (run_threads T self)) r = nth_error (devices self) r
  /\ List.length (devices (run_threads T self)) = List.length (devices self)
  /\ micro_batches (run_threads T self) = micro_batches self.
Proof.
  intros Hr. split; [|split].
  - unfold run_threads. cbn [seq fold_left]. now rewrite !thread_body_other by lia.
  - unfold run_threads. cbn [seq fold_left]. now rewrite !thread_body_length.
  - apply run_threads_micro_batches.
Qed.

Lemma run_threads_only_four_witness :
  nth_error (devices (run_threads ideal five_devices)) 4
  = nth_error (devices five_devices) 4
  /\ List.length (devices (run_threads ideal five_devices))
     = List.length (devices five_devices)
  /\ micro_batches (run_threads ideal five_devices) = micro_batches five_devices.
Proof.
  apply (run_threads_only_four ideal five_devices 4). lia.
Defined.

(** ** Stages and batch sizes the schedule was not written for *)

(** X5. A device whose stage is neither 0 nor 1 executes no Forward and no
    Backward at all: [run_1f1b_schedule] only appends the two all-reduce
    steps, the first at the instant the thread starts, and leaves the memory
    as it was. *)
Theorem other_stage_only_all_reduce (lag : nat -> Z) (self : HybridTrainer) (r : nat)
        (device d : Device) (t0 : Z) :
  nth_error (devices self) r = Some device ->
  stage device <> 0 -> stage device <> 1 ->
  run_1f1b_schedule lag self r t0 = Ok d ->
  log d
  = log device
    ++ [ Event.mk (rank device) "All-Reduce Step 1" t0 20;
         Event.mk (rank device) "All-Reduce Step 2"
           (t0 + 20 + lag (List.length (log device))) 20 ]
  /\ memory d = memory device.
Proof.
  intros Hdev H0 H1 Hrun.
  rewrite (run_1f1b_schedule_calls _ _ _ _ _ Hdev) in Hrun.
  apply Ok_inj in Hrun. subst d.
  rewrite (calls_1f1b_other _ _ H0 H1), all_reduce_unfold.
  unfold log_event. cbn [exec_all fold_left dev now log set_log rank memory].
  rewrite <- app_assoc. split; reflexivity.
Qed.

Lemma other_stage_only_all_reduce_witness :
  log (dev (all_reduce (overshoot ideal 2)
              {| dev := Device_init 2 2 3 3; now := spawn ideal 2 |}))
  = log (Device_init 2 2 3 3)
    ++ [ Event.mk (rank (Device_init 2 2 3 3)) "All-Reduce Step 1" (spawn ideal 2) 20;
         Event.mk (rank (Device_init 2 2 3 3)) "All-Reduce Step 2"
           (spawn ideal 2 + 20
            + overshoot ideal 2 (List.length (log (Device_init 2 2 3 3)))) 20 ]
  /\ memory (dev (all_reduce (overshoot ideal 2)
                    {| dev := Device_init 2 2 3 3; now := spawn ideal 2 |}))
     = memory (Device_init 2 2 3 3).
Proof.
  apply (other_stage_only_all_reduce (overshoot ideal 2) three_stages 2
           (Device_init 2 2 3 3)).
  - reflexivity.
  - discriminate.
  - discriminate.
  - reflexivity.
Defined.

Lemma micro_batch_id_in_range (M st : Z) (c : Instruction) :
  3 <= M -> In c (calls_1f1b M st) -> 0 <= micro_batch_id c < M.
Proof.
  intros HM Hc.
  destruct (Z.eq_dec st 0) as [->|H0]; [|destruct (Z.eq_dec st 1) as [->|H1]].
  - rewrite calls_1f1b_stage0 in Hc. destruct c; in_calls; cbn; lia.
  - rewrite calls_1f1b_stage1 in Hc. destruct c; in_calls; cbn; lia.
  - rewrite calls_1f1b_other in Hc by assumption. destruct Hc.
Qed.

(** X6. With at least three micro-batches, every Forward and every Backward
    a device logs is for a micro-batch of the batch: every entry of its log is
    an all-reduce step or is named after a call whose micro-batch id lies in
    [0, micro_batches). *)
Theorem logged_ids_in_range (lag : nat -> Z) (self : HybridTrainer) (r : nat)
        (device d : Device) (t0 : Z) (name : string) :
  nth_error (devices self) r = Some device ->
  log device = [] ->
  3 <= micro_batches self ->
  run_1f1b_schedule lag self r t0 = Ok d ->
  In name (logged d) ->
  In name all_reduce_names
  \/ exists c, name = event_name c /\ 0 <= micro_batch_id c < micro_batches self.
Proof.
  intros Hdev Hlog HM Hrun Hin.
  rewrite (run_1f1b_schedule_logged _ _ _ _ _ _ Hdev Hlog Hrun) in Hin.
  apply in_app_or in Hin as [Hin|Hin]; [right|now left].
  apply in_map_iff in Hin as (c & <- & Hc).
  exists c. split; [reflexivity|].
  now apply (micro_batch_id_in_range _ (stage device)).
Qed.

Lemma logged_ids_in_range_witness :
  In "Forward MB 7"%string all_reduce_names
  \/ exists c, "Forward MB 7"%string = event_name c
               /\ 0 <= micro_batch_id c < micro_batches HybridTrainer_init.
Proof.
  apply (logged_ids_in_range (overshoot ideal 0) HybridTrainer_init 0
           (Device_init 0 0 4 2) (thread_result ideal 8 0 (Device_init 0 0 4 2))
           (spawn ideal 0)).
  - reflexivity.
  - reflexivity.
  - cbn. lia.
  - apply run_1f1b_schedule_init. reflexivity.
  - rewrite thread_result_logged by reflexivity. vm_compute. tauto.
Defined.

(** X7. With two micro-batches or fewer the hard-coded start of each branch
    still runs in full.  On stage 0 the device logs Forward 0, 1, 2 and
    Backward 0, 1 and then Backward(micro_batches - 1), so it works on
    micro-batch 2, which is not in the batch, and, when [micro_batches] is 0,
    on micro-batch -1; on stage 1 it logs the pairs of micro-batches 0 and 1,
    whatever [micro_batches] is. *)
Theorem small_batch_runs_fixed_calls (lag : nat -> Z) (self : HybridTrainer) (r : nat)
        (device d : Device) (t0 : Z) :
  nth_error (devices self) r = Some device ->
  log device = [] ->
  micro_batches self <= 2 ->
  run_1f1b_schedule lag self r t0 = Ok d ->
  (stage device = 0 ->
   logged d
   = [ "Forward MB 0"; "Forward MB 1"; "Backward MB 0"; "Forward MB 2";
       "Backward MB 1"; "Backward MB " ++ str (micro_batches self - 1);
       "All-Reduce Step 1"; "All-Reduce Step 2" ]%string)
  /\ (stage device = 1 ->
      logged d
      = [ "Forward MB 0"; "Backward MB 0"; "Forward MB 1"; "Backward MB 1";
          "All-Reduce Step 1"; "All-Reduce Step 2" ]%string).
Proof.
  intros Hdev Hlog HM Hrun.
  rewrite (run_1f1b_schedule_logged _ _ _ _ _ _ Hdev Hlog Hrun).
  split; intros ->.
  - rewrite calls_1f1b_stage0, range_nil by lia. reflexivity.
  - rewrite calls_1f1b_stage1, range_nil by lia. reflexivity.
Qed.

Lemma small_batch_runs_fixed_calls_witness :
  (stage (Device_init 0 0 2 2) = 0 ->
   logged (dev (all_reduce (fun _ => 0)
                  (exec_all (fun _ => 0) (calls_1f1b 0 0)
                     {| dev := Device_init 0 0 2 2; now := 0 |})))
   = [ "Forward MB 0"; "Forward MB 1"; "Backward MB 0"; "Forward MB 2";
       "Backward MB 1"; "Backward MB " ++ str (micro_batches empty_batch - 1);
       "All-Reduce Step 1"; "All-Reduce Step 2" ]%string)
  /\ (stage (Device_init 0 0 2 2) = 1 ->
      logged (dev (all_reduce (fun _ => 0)
                     (exec_all (fun _ => 0) (calls_1f1b 0 0)
                        {| dev := Device_init 0 0 2 2; now := 0 |})))
      = [ "Forward MB 0"; "Backward MB 0"; "Forward MB 1"; "Backward MB 1";
          "All-Reduce Step 1"; "All-Reduce Step 2" ]%string).
Proof.
  apply (small_batch_runs_fixed_calls (fun _ => 0) empty_batch 0 (Device_init 0 0 2 2)
           _ 0).
  - reflexivity.
  - reflexivity.
  - cbn. lia.
  - apply (run_1f1b_schedule_calls (fun _ => 0) empty_batch 0 0 (Device_init 0 0 2 2)).
    reflexivity.
Defined.

(** With an empty batch the last call of stage 0 is logged as micro-batch -1. *)
Lemma empty_batch_backward_name :
  ("Backward MB " ++ str (micro_batches empty_batch - 1))%string = "Backward MB -1"%string.
Proof. reflexivity. Qed.

(** ** How often each micro-batch is processed *)

Lemma occurrences_app (c : Instruction) (l1 l2 : list Instruction) :
  occurrences c (l1 ++ l2) = (occurrences c l1 + occurrences c l2)%nat.
Proof. unfold occurrences. now rewrite filter_app, length_app. Qed.

Lemma count_in_range (x : Z) (n : nat) :
  forall a b, Z.to_nat (b - a) = n ->
    List.length (filter (fun j => x =? j) (range a b))
    = if (a <=? x) && (x <? b) then 1%nat else 0%nat.
Proof.
  induction n as [|n IH]; intros a b Hn.
  - rewrite range_nil by lia.
    destruct (Z.leb_spec a x), (Z.ltb_spec x b); cbn; try reflexivity; lia.
  - rewrite range_cons by lia. cbn [filter].
    specialize (IH (a + 1) b ltac:(lia)).
    destruct (Z.eqb_spec x a) as [->|Hne].
    + cbn [List.length]. rewrite IH.
      destruct (Z.leb_spec (a + 1) a), (Z.leb_spec a a), (Z.ltb_spec a b);
        cbn; try reflexivity; lia.
    + rewrite IH.
      destruct (Z.leb_spec (a + 1) x), (Z.leb_spec a x), (Z.ltb_spec x b);
        cbn; try reflexivity; lia.
Qed.

Lemma occurrences_forward_pairs (f g : Z -> Z) (i : Z) (xs : list Z) :
  occurrences (Forward i) (flat_map (fun j => [Forward (f j); Backward (g j)]) xs)
  = List.length (filter (fun j => i =? f j) xs).
Proof.
  unfold occurrences. induction xs as [|x xs IH]; [reflexivity|].
  cbn [flat_map app filter Instruction_eqb].
  destruct (i =? f x); cbn [List.length]; now rewrite IH.
Qed.

Lemma occurrences_backward_pairs (f g : Z -> Z) (i : Z) (xs : list Z) :
  occurrences (Backward i) (flat_map (fun j => [Forward (f j); Backward (g j)]) xs)
  = List.length (filter (fun j => i =? g j) xs).
Proof.
  unfold occurrences. induction xs as [|x xs IH]; [reflexivity|].
  cbn [flat_map app filter Instruction_eqb].
  destruct (i =? g x); cbn [List.length]; now rewrite IH.
Qed.

Lemma count_in_range_pred (x a b : Z) :
  List.length (filter (fun j => x =? j - 1) (range a b))
  = if (a <=? x + 1) && (x + 1 <? b) then 1%nat else 0%nat.
Proof.
  rewrite <- (count_in_range (x + 1) (Z.to_nat (b - a)) a b eq_refl).
  f_equal. apply filter_ext. intros j.
  destruct (Z.eqb_spec x (j - 1)), (Z.eqb_spec (x + 1) j); try reflexivity; lia.
Qed.

(** The names of a log count like the calls they stand for. *)
Lemma count_name_calls (c : Instruction) (cs : list Instruction) :
  count_name (event_name c) (map event_name cs ++ all_reduce_names) = occurrences c cs.
Proof.
  unfold count_name, occurrences. rewrite filter_app, length_app.
  replace (filter (String.eqb (event_name c)) all_reduce_names) with (@nil string).
  - cbn [List.length]. rewrite Nat.add_0_r.
    induction cs as [|x cs IH]; [reflexivity|]. cbn [map filter].
    replace (String.eqb (event_name c) (event_name x)) with (Instruction_eqb c x).
    + destruct (Instruction_eqb c x); cbn [List.length]; now rewrite IH.
    + destruct (Instruction_eqb c x) eqn:E.
      * apply Instruction_eqb_eq in E. subst. symmetry. apply String.eqb_refl.
      * symmetry. apply String.eqb_neq. intros H. apply event_name_inj in H.
        apply Instruction_eqb_eq in H. congruence.
  - pose proof (event_name_not_all_reduce c) as H. cbn [all_reduce_names filter In] in *.
    destruct (String.eqb_spec (event_name c) "All-Reduce Step 1") as [E|_];
      [exfalso; apply H; left; now symmetry|].
    destruct (String.eqb_spec (event_name c) "All-Reduce Step 2") as [E|_];
      [exfalso; apply H; right; left; now symmetry|].
    reflexivity.
Qed.

(** X8. On the last stage every micro-batch of the batch is processed exactly
    once: with at least two micro-batches, the log of a stage-1 device holds
    exactly one Forward and exactly one Backward entry for every micro-batch
    id in [0, micro_batches), and 2 * micro_batches + 2 entries in all. *)
Theorem last_stage_exactly_once (lag : nat -> Z) (self : HybridTrainer) (r : nat)
        (device d : Device) (t0 i : Z) :
  nth_error (devices self) r = Some device ->
  log device = [] ->
  stage device = 1 ->
  2 <= micro_batches self ->
  run_1f1b_schedule lag self r t0 = Ok d ->
  0 <= i < micro_batches self ->
  count_name (event_name (Forward i)) (logged d) = 1%nat
  /\ count_name (event_name (Backward i)) (logged d) = 1%nat
  /\ Z.of_nat (List.length (log d)) = 2 * micro_batches self + 2.
Proof.
  intros Hdev Hlog Hst HM Hrun Hi.
  rewrite <- length_logged.
  rewrite (run_1f1b_schedule_logged _ _ _ _ _ _ Hdev Hlog Hrun), Hst.
  rewrite !count_name_calls, stage1_one_pair_each by lia.
  rewrite (occurrences_forward_pairs (fun j => j) (fun j => j)).
  rewrite (occurrences_backward_pairs (fun j => j) (fun j => j)).
  rewrite (count_in_range i _ 0 (micro_batches self) eq_refl).
  replace ((0 <=? i) && (i <? micro_batches self)) with true
    by (symmetry; apply andb_true_iff; split; [apply Z.leb_le|apply Z.ltb_lt]; lia).
  repeat split.
  rewrite length_app, length_map.
  assert (E : forall xs : list Z,
             List.length (flat_map (fun j => [Forward j; Backward j]) xs)
             = (2 * List.length xs)%nat).
  { induction xs as [|x xs IH]; [reflexivity|].
    cbn [flat_map app List.length]. rewrite IH. lia. }
  rewrite E. unfold range. rewrite length_map, length_seq. cbn [all_reduce_names List.length].
  lia.
Qed.

Lemma last_stage_exactly_once_witness :
  count_name (event_name (Forward 2)) (logged (thread_result ideal 8 1 (Device_init 1 1 4 2)))
  = 1%nat
  /\ count_name (event_name (Backward 2))
       (logged (thread_result ideal 8 1 (Device_init 1 1 4 2))) = 1%nat
  /\ Z.of_nat (List.length (log (thread_result ideal 8 1 (Device_init 1 1 4 2))))
     = 2 * micro_batches HybridTrainer_init + 2.
Proof.
  apply (last_stage_exactly_once (overshoot ideal 1) HybridTrainer_init 1
           (Device_init 1 1 4 2) (thread_result ideal 8 1 (Device_init 1 1 4 2))
           (spawn ideal 1) 2).
  - reflexivity.
  - reflexivity.
  - reflexivity.
  - cbn. lia.
  - apply run_1f1b_schedule_init. reflexivity.
  - cbn. lia.
Defined.

(** X9. On the first stage, with at least three micro-batches, every
    micro-batch of the batch gets exactly one Forward entry except micro-batch
    2, which gets two, and exactly one Backward entry except micro-batch 1,
    which gets two; the log holds 2 * micro_batches + 4 entries. *)
Theorem first_stage_counts (lag : nat -> Z) (self : HybridTrainer) (r : nat)
        (device d : Device) (t0 i : Z) :
  nth_error (devices self) r = Some device ->
  log device = [] ->
  stage device = 0 ->
  3 <= micro_batches self ->
  run_1f1b_schedule lag self r t0 = Ok d ->
  0 <= i < micro_batches self ->
  count_name (event_name (Forward i)) (logged d) = (if i =? 2 then 2%nat else 1%nat)
  /\ count_name (event_name (Backward i)) (logged d) = (if i =? 1 then 2%nat else 1%nat)
  /\ Z.of_nat (List.length (log d)) = 2 * micro_batches self + 4.
Proof.
  intros Hdev Hlog Hst HM Hrun Hi.
  rewrite <- length_logged.
  rewrite (run_1f1b_schedule_logged _ _ _ _ _ _ Hdev Hlog Hrun), Hst.
  rewrite !count_name_calls.
  split; [|split].
  - rewrite calls_1f1b_stage0, !occurrences_app.
    rewrite (occurrences_forward_pairs (fun j => j) (fun j => j - 1)).
    rewrite (count_in_range i _ 2 (micro_batches self) eq_refl).
    unfold occurrences. cbn [filter Instruction_eqb].
    destruct (Z.eqb_spec i 0) as [->|H0]; [reflexivity|].
    destruct (Z.eqb_spec i 1) as [->|H1]; [reflexivity|].
    destruct (Z.eqb_spec i 2) as [->|H2].
    + replace ((2 <=? 2) && (2 <? micro_batches self)) with true
        by (symmetry; apply andb_true_iff; split; [apply Z.leb_le|apply Z.ltb_lt]; lia).
      reflexivity.
    + replace ((2 <=? i) && (i <? micro_batches self)) with true
        by (symmetry; apply andb_true_iff; split; [apply Z.leb_le|apply Z.ltb_lt]; lia).
      reflexivity.
  - rewrite calls_1f1b_stage0, !occurrences_app.
    rewrite (occurrences_backward_pairs (fun j => j) (fun j => j - 1)).
    rewrite count_in_range_pred.
    unfold occurrences. cbn [filter Instruction_eqb].
    destruct (Z.eqb_spec i 0) as [->|H0].
    + destruct (Z.eqb_spec 0 (micro_batches self - 1)); [lia|]. reflexivity.
    + destruct (Z.eqb_spec i 1) as [->|H1].
      * destruct (Z.eqb_spec 1 (micro_batches self - 1)); [lia|].
        replace ((2 <=? 1 + 1) && (1 + 1 <? micro_batches self)) with true
          by (symmetry; apply andb_true_iff; split; [apply Z.leb_le|apply Z.ltb_lt]; lia).
        reflexivity.
      * destruct (Z.eqb_spec i (micro_batches self - 1)) as [E|E].
        -- replace ((2 <=? i + 1) && (i + 1 <? micro_batches self)) with false
             by (symmetry; apply andb_false_iff; right; apply Z.ltb_ge; lia).
           reflexivity.
        -- replace ((2 <=? i + 1) && (i + 1 <? micro_batches self)) with true
             by (symmetry; apply andb_true_iff; split; [apply Z.leb_le|apply Z.ltb_lt]; lia).
           reflexivity.
  - rewrite length_app, length_map.
    pose proof (stage0_two_calls_too_many (micro_batches self) ltac:(lia)) as E.
    cbn [all_reduce_names List.length]. lia.
Qed.

Lemma first_stage_counts_witness :
  count_name (event_name (Forward 2)) (logged (thread_result ideal 8 0 (Device_init 0 0 4 2)))
  = (if 2 =? 2 then 2%nat else 1%nat)
  /\ count_name (event_name (Backward 2))
       (logged (thread_result ideal 8 0 (Device_init 0 0 4 2)))
     = (if 2 =? 1 then 2%nat else 1%nat)
  /\ Z.of_nat (List.length (log (thread_result ideal 8 0 (Device_init 0 0 4 2))))
     = 2 * micro_batches HybridTrainer_init + 4.
Proof.
  apply (first_stage_counts (overshoot ideal 0) HybridTrainer_init 0
           (Device_init 0 0 4 2) (thread_result ideal 8 0 (Device_init 0 0 4 2))
           (spawn ideal 0) 2).
  - reflexivity.
  - reflexivity.
  - reflexivity.
  - cbn. lia.
  - apply run_1f1b_schedule_init. reflexivity.
  - cbn. lia.
Defined.

(** ** Memory of arbitrary call sequences *)

(** X10. The memory of a device is a signed counter of activations in
    flight: after any sequence of forward and backward calls it equals its
    initial value plus 10 for every Forward and minus 10 for every Backward of
    the sequence, with no clamping at zero, and the all-reduce does not
    change it. *)
Theorem memory_counts_calls (lag : nat -> Z) (cs : list Instruction) (s : Thread) :
  memory (dev (exec_all lag cs s))
  = memory (dev s)
    + 10 * (Z.of_nat (List.length (filter is_forward cs))
            - Z.of_nat (List.length (filter is_backward cs)))
  /\ memory (dev (all_reduce lag (exec_all lag cs s))) = memory (dev (exec_all lag cs s)).
Proof.
  split; [|apply all_reduce_memory].
  rewrite exec_all_memory. fold (net cs). now rewrite count_forward_backward.
Qed.

(** A Backward that no Forward precedes takes the memory below zero. *)
Lemma memory_can_go_negative :
  memory (dev (backward (fun _ => 0) 0 {| dev := Device_init 0 0 4 2; now := 0 |})) = -10.
Proof. reflexivity. Qed.

Lemma peak_within_app hi m cs1 cs2 :
  peak_within hi m cs1 -> peak_within hi (m + net cs1) cs2 ->
  peak_within hi m (cs1 ++ cs2).
Proof.
  revert m. induction cs1 as [|c cs1 IH]; intros m H1 H2.
  - cbn in *. now rewrite Z.add_0_r in H2.
  - cbn [app peak_within] in *. destruct H1 as [Hc H1]. split; [exact Hc|].
    apply IH; [exact H1|].
    unfold net in *. cbn [map fold_right] in H2.
    now rewrite Z.add_assoc in H2.
Qed.

Lemma peak_within_firstn (lag : nat -> Z) (hi : Z) (cs : list Instruction) :
  forall (k : nat) (s : Thread),
    0 <= memory (dev s) <= hi ->
    peak_within hi (memory (dev s)) cs ->
    0 <= memory (dev (exec_all lag (firstn k cs) s)) <= hi.
Proof.
  induction cs as [|c cs IH]; intros k s Hm H.
  - now rewrite firstn_nil.
  - destruct k as [|k]; [exact Hm|].
    cbn [firstn]. rewrite exec_all_cons.
    destruct H as [Hc H].
    apply IH; rewrite exec_memory; assumption.
Qed.

Lemma peak_within_same_pairs (xs : list Z) :
  peak_within 10 0 (flat_map (fun i => [Forward i; Backward i]) xs).
Proof.
  induction xs as [|x xs IH]; [exact I|].
  cbn [flat_map app peak_within delta]. repeat split; try lia. exact IH.
Qed.

(** X11. The two stages differ in how much they hold in flight.  A stage-1
    device that starts at 0 never holds more than one activation: its memory
    is 0 or 10 after every call, for any number of micro-batches.  A stage-0
    device holds two activations (20) right after its second call. *)
Theorem peak_memory_by_stage (lag : nat -> Z) (self : HybridTrainer) (r : nat)
        (device : Device) (t0 : Z) (k : nat) :
  nth_error (devices self) r = Some device ->
  memory device = 0 ->
  let calls := calls_1f1b (micro_batches self) (stage device) in
  (stage device = 1 ->
   0 <= memory (dev (exec_all lag (firstn k calls) {| dev := device; now := t0 |})) <= 10)
  /\ (stage device = 0 ->
      memory (dev (exec_all lag (firstn 2 calls) {| dev := device; now := t0 |})) = 20).
Proof.
  intros Hdev Hmem calls. subst calls. split; intros Hst; rewrite Hst.
  - apply peak_within_firstn; cbn [dev]; rewrite Hmem; [lia|].
    rewrite calls_1f1b_stage1.
    apply peak_within_app; [cbn; lia|]. apply peak_within_same_pairs.
  - rewrite calls_1f1b_stage0. cbn [app firstn].
    unfold exec_all. cbn [fold_left]. rewrite !exec_memory. cbn [dev delta]. lia.
Qed.

Lemma peak_memory_by_stage_witness :
  (stage (Device_init 1 1 4 2) = 1 ->
   0 <= memory (dev (exec_all (fun _ => 0)
                       (firstn 1 (calls_1f1b (micro_batches HybridTrainer_init)
                                    (stage (Device_init 1 1 4 2))))
                       {| dev := Device_init 1 1 4 2; now := 0 |})) <= 10)
  /\ (stage (Device_init 1 1 4 2) = 0 ->
      memory (dev (exec_all (fun _ => 0)
                     (firstn 2 (calls_1f1b (micro_batches HybridTrainer_init)
                                  (stage (Device_init 1 1 4 2))))
                     {| dev := Device_init 1 1 4 2; now := 0 |})) = 20).
Proof.
  apply (peak_memory_by_stage (fun _ => 0) HybridTrainer_init 1 (Device_init 1 1 4 2) 0 1).
  - reflexivity.
  - reflexivity.
Defined.

(** ** How long a device is busy *)

Lemma lag_sum_snoc (lag : nat -> Z) (k n : nat) :
  lag_sum lag k (S n) = lag_sum lag k n + lag (k + n)%nat.
Proof.
  unfold lag_sum. rewrite seq_S, map_app, fold_right_app. cbn [map fold_right].
  generalize (map lag (seq k n)) as l. intros l.
  induction l as [|x l IH]; cbn [fold_right]; [lia|]. rewrite IH. lia.
Qed.

Lemma lag_sum_cons (lag : nat -> Z) (k n : nat) :
  lag_sum lag k (S n) = lag k + lag_sum lag (S k) n.
Proof. reflexivity. Qed.

Lemma lag_sum_nonneg (lag : nat -> Z) (k n : nat) :
  never_early lag -> 0 <= lag_sum lag k n.
Proof.
  intros H. revert k. induction n as [|n IH]; intros k; [cbn; lia|].
  rewrite lag_sum_cons. specialize (IH (S k)). specialize (H k). lia.
Qed.

Lemma exec_all_length_log (lag : nat -> Z) (cs : list Instruction) :
  forall s, List.length (log (dev (exec_all lag cs s)))
            = (List.length (log (dev s)) + List.length cs)%nat.
Proof.
  induction cs as [|c cs IH]; intros s; [cbn; lia|].
  rewrite exec_all_cons, IH, exec_log, length_app. cbn [List.length]. lia.
Qed.

(** The clock of a thread after a sequence of calls. *)
Lemma exec_all_clock (lag : nat -> Z) (cs : list Instruction) :
  forall s, now (exec_all lag cs s)
            = now s + total_cost cs
              + lag_sum lag (List.length (log (dev s))) (List.length cs).
Proof.
  unfold total_cost.
  induction cs as [|c cs IH]; intros s; [cbn; lia|].
  rewrite exec_all_cons, IH, exec_now, exec_log, length_app.
  cbn [List.length map fold_right]. rewrite lag_sum_cons.
  replace (List.length (log (dev s)) + 1)%nat with (S (List.length (log (dev s)))) by lia.
  lia.
Qed.

Lemma total_cost_app (cs1 cs2 : list Instruction) :
  total_cost (cs1 ++ cs2) = total_cost cs1 + total_cost cs2.
Proof.
  unfold total_cost. induction cs1 as [|c cs1 IH]; cbn [app map fold_right]; lia.
Qed.

Lemma total_cost_pairs (f g : Z -> Z) (xs : list Z) :
  total_cost (flat_map (fun i => [Forward (f i); Backward (g i)]) xs)
  = 130 * Z.of_nat (List.length xs).
Proof.
  induction xs as [|x xs IH]; [reflexivity|].
  cbn [flat_map]. rewrite total_cost_app, IH. cbn [List.length].
  unfold total_cost. cbn [map fold_right cost]. lia.
Qed.

Lemma length_range (a b : Z) : Z.of_nat (List.length (range a b)) = Z.max 0 (b - a).
Proof. unfold range. rewrite length_map, length_seq. lia. Qed.

Lemma total_cost_calls_1f1b (M st : Z) :
  2 <= M -> st = 0 \/ st = 1 ->
  total_cost (calls_1f1b M st) = 130 * (M + (if st =? 0 then 1 else 0)).
Proof.
  intros HM [-> | ->].
  - rewrite calls_1f1b_stage0, !total_cost_app, total_cost_pairs, length_range.
    unfold total_cost. cbn [map fold_right cost Z.eqb]. lia.
  - rewrite calls_1f1b_stage1, total_cost_app,
      (total_cost_pairs (fun i => i) (fun i => i)), length_range.
    unfold total_cost. cbn [map fold_right cost Z.eqb]. lia.
Qed.

(** X12. How long a device is busy.  With at least two micro-batches, the
    last entry of the log of a device is the second all-reduce step, and it is
    over at the start instant plus 130 ms per micro-batch (50 for the Forward,
    80 for the Backward), plus 130 ms more on stage 0 for the pair it runs
    twice, plus 40 ms of all-reduce, plus the overshoot of the sleeps before
    it.  So a device is never done earlier than that, and is done exactly then
    when no sleep overshoots. *)
Theorem device_busy_time (lag : nat -> Z) (self : HybridTrainer) (r : nat)
        (device d : Device) (t0 : Z) :
  nth_error (devices self) r = Some device ->
  log device = [] ->
  stage device = 0 \/ stage device = 1 ->
  2 <= micro_batches self ->
  run_1f1b_schedule lag self r t0 = Ok d ->
  let busy := 130 * (micro_batches self + (if stage device =? 0 then 1 else 0)) + 40 in
  exists before last,
    log d = before ++ [last]
    /\ Event.event last = "All-Reduce Step 2"%string
    /\ Event.start last + Event.duration last
       = t0 + busy + lag_sum lag 0 (List.length before)
    /\ (never_early lag -> t0 + busy <= Event.start last + Event.duration last)
    /\ ((forall k, lag k = 0) -> Event.start last + Event.duration last = t0 + busy).
Proof.
  intros Hdev Hlog Hst HM Hrun busy.
  rewrite (run_1f1b_schedule_calls _ _ _ _ _ Hdev) in Hrun.
  apply Ok_inj in Hrun. subst d.
  rewrite all_reduce_unfold.
  set (s := exec_all lag (calls_1f1b (micro_batches self) (stage device))
              {| dev := device; now := t0 |}).
  assert (Hlen : List.length (log (dev s))
                 = List.length (calls_1f1b (micro_batches self) (stage device))).
  { subst s. rewrite exec_all_length_log. cbn [dev]. now rewrite Hlog. }
  assert (Hnow : now s = t0 + (busy - 40) + lag_sum lag 0 (List.length (log (dev s)))).
  { rewrite Hlen. subst s. rewrite exec_all_clock. cbn [dev now]. rewrite Hlog.
    cbn [List.length]. rewrite total_cost_calls_1f1b by assumption. subst busy. lia. }
  unfold log_event at 1. cbn [dev log set_log now].
  eexists _, _. split; [reflexivity|]. split; [reflexivity|].
  cbn [Event.start Event.duration].
  unfold log_event. cbn [dev log set_log now].
  assert (Hend : now s + 20 + lag (List.length (log (dev s))) + 20
                 = t0 + busy
                   + lag_sum lag 0 (List.length (log (dev s) ++
                       [{| Event.rank := rank (dev s); Event.event := "All-Reduce Step 1";
                           Event.start := now s; Event.duration := 20 |}]))).
  { rewrite length_app. cbn [List.length].
    replace (List.length (log (dev s)) + 1)%nat with (S (List.length (log (dev s)))) by lia.
    rewrite lag_sum_snoc, Hnow. cbn [Nat.add]. lia. }
  split; [exact Hend|]. split.
  - intros Hlag. rewrite Hend.
    pose proof (lag_sum_nonneg lag 0
                  (List.length (log (dev s) ++
                     [{| Event.rank := rank (dev s); Event.event := "All-Reduce Step 1";
                         Event.start := now s; Event.duration := 20 |}])) Hlag).
    lia.
  - intros Hzero. rewrite Hend.
    assert (Hz : forall n k, lag_sum lag k n = 0).
    { induction n as [|n IH]; intros k; [reflexivity|].
      rewrite lag_sum_cons, Hzero, IH. reflexivity. }
    rewrite Hz. lia.
Qed.

Lemma device_busy_time_witness :
  let busy := 130 * (micro_batches HybridTrainer_init
                     + (if stage (Device_init 0 0 4 2) =? 0 then 1 else 0)) + 40 in
  exists before last,
    log (thread_result ideal 8 0 (Device_init 0 0 4 2)) = before ++ [last]
    /\ Event.event last = "All-Reduce Step 2"%string
    /\ Event.start last + Event.duration last
       = spawn ideal 0 + busy + lag_sum (overshoot ideal 0) 0 (List.length before)
    /\ (never_early (overshoot ideal 0) ->
        spawn ideal 0 + busy <= Event.start last + Event.duration last)
    /\ ((forall k, overshoot ideal 0 k = 0) ->
        Event.start last + Event.duration last = spawn ideal 0 + busy).
Proof.
  apply (device_busy_time (overshoot ideal 0) HybridTrainer_init 0
           (Device_init 0 0 4 2) (thread_result ideal 8 0 (Device_init 0 0 4 2))
           (spawn ideal 0)).
  - reflexivity.
  - reflexivity.
  - left. reflexivity.
  - cbn. lia.
  - apply run_1f1b_schedule_init. reflexivity.
Defined.

(** ** Reading a log back *)

(** X13. The name under which a call is logged tells the call: two calls are
    logged under the same name only when they are the same kind of call on the
    same micro-batch (also for negative and multi-digit ids), and no call is
    logged under the name of an all-reduce step. *)
Theorem event_name_identifies_call (a b : Instruction) :
  (event_name a = event_name b <-> a = b)
  /\ ~ In (event_name a) all_reduce_names
  /\ is_all_reduce_step (event_name a) = false.
Proof.
  split; [split|split].
  - apply event_name_inj.
  - now intros ->.
  - apply event_name_not_all_reduce.
  - apply event_name_not_step.
Qed.

(** ** [generate_timeline] on arbitrary logs *)

Lemma set_col_out_of_range (c : list string) (i : nat) (x : string) :
  (List.length c <= i)%nat -> set_col c i x = Raise IndexError.
Proof.
  revert i. induction c as [|y c IH]; intros i Hi; [now destruct i|].
  destruct i as [|i]; [cbn in Hi; lia|].
  cbn. rewrite IH; [reflexivity|cbn in Hi; lia].
Qed.

Lemma print_rows_index_error (t0 : Z) (evs : list Event.t) :
  Exists (fun e => (4 <= Event.rank e)%nat) evs -> print_rows t0 evs = Raise IndexError.
Proof.
  induction 1 as [e evs He|e evs _ IH]; cbn [print_rows].
  - rewrite set_col_out_of_range; [reflexivity|exact He].
  - destruct (set_col _ _ _) as [c|[]]; [|reflexivity].
    now rewrite IH.
Qed.

Lemma print_rows_length (t0 : Z) (evs : list Event.t) (rows : list Row) :
  print_rows t0 evs = Ok rows -> List.length rows = List.length evs.
Proof.
  revert rows. induction evs as [|e evs IH]; intros rows H; cbn [print_rows] in H.
  - apply Ok_inj in H. now subst.
  - destruct (set_col _ _ _) as [c|]; [|discriminate].
    destruct (print_rows t0 evs) as [rows'|]; [|discriminate].
    apply Ok_inj in H. subst. cbn [List.length]. now rewrite (IH rows').
Qed.

Lemma Forall_or_Exists_rank (evs : list Event.t) :
  Forall (fun e => (Event.rank e < 4)%nat) evs
  \/ Exists (fun e => (4 <= Event.rank e)%nat) evs.
Proof.
  induction evs as [|e evs [IH|IH]].
  - left. constructor.
  - destruct (Nat.lt_ge_cases (Event.rank e) 4) as [H|H].
    + left. now constructor.
    + right. now constructor.
  - right. now constructor 2.
Qed.

(** X14. [generate_timeline] on any logs.  With no event at all it prints no
    row.  It prints one row per logged event exactly when every event has a
    rank from 0 to 3; as soon as one event has a rank of 4 or more, filling
    the four columns raises [IndexError]. *)
Theorem generate_timeline_rows_or_error (self : HybridTrainer) :
  (all_events self = [] -> generate_timeline self = Ok [])
  /\ (Forall (fun e => (Event.rank e < 4)%nat) (all_events self) ->
      exists rows, generate_timeline self = Ok rows
                   /\ List.length rows = List.length (all_events self))
  /\ (Exists (fun e => (4 <= Event.rank e)%nat) (all_events self) ->
      generate_timeline self = Raise IndexError).
Proof.
  pose proof (sort_by_start_perm (all_events self)) as Hperm.
  split; [|split].
  - intros H. unfold generate_timeline. now rewrite H.
  - intros Hall. unfold generate_timeline.
    destruct (sort_by_start (all_events self)) as [|e0 rest] eqn:E.
    + exists []. split; [reflexivity|].
      apply Permutation_sym, Permutation_nil in Hperm. now rewrite Hperm.
    + assert (Hall' : Forall (fun e => (Event.rank e < 4)%nat) (e0 :: rest)).
      { rewrite Forall_forall in *. intros e He. apply Hall.
        now apply (Permutation_in _ (Permutation_sym Hperm)). }
      destruct (print_rows_ok (Event.start e0) _ Hall') as (rows & Hrows & _).
      exists rows. split; [exact Hrows|].
      rewrite (print_rows_length _ _ _ Hrows).
      symmetry. now apply Permutation_length.
  - intros Hex. unfold generate_timeline.
    assert (Hex' : Exists (fun e => (4 <= Event.rank e)%nat)
                     (sort_by_start (all_events self))).
    { rewrite Exists_exists in *. destruct Hex as (e & He & Hr).
      exists e. split; [now apply (Permutation_in _ Hperm)|exact Hr]. }
    destruct (sort_by_start (all_events self)) as [|e0 rest] eqn:E.
    + inversion Hex'.
    + now apply print_rows_index_error.
Qed.

(** The fifth device of a trainer, once it has logged, breaks the timeline. *)
Lemma fifth_device_breaks_timeline :
  generate_timeline
    {| devices := [set_log (Device_init 4 0 5 2) [Event.mk 4 "Forward MB 0" 0 50]];
       micro_batches := 8 |}
  = Raise IndexError.
Proof. reflexivity. Qed.

Lemma insert_by_start_sorted (e : Event.t) (l : list Event.t) :
  StronglySorted start_le l -> StronglySorted start_le (insert_by_start e l).
Proof.
  induction 1 as [|x l Hl IH Hx]; cbn.
  - repeat constructor.
  - destruct (Z.leb_spec (Event.start e) (Event.start x)) as [Hle|Hgt].
    + constructor; [now constructor|].
      constructor; [exact Hle|].
      eapply Forall_impl; [|exact Hx]. unfold start_le. intros y Hy. lia.
    + constructor; [exact IH|].
      rewrite Forall_forall in *. intros y Hy.
      apply (Permutation_in _ (Permutation_sym (insert_by_start_perm e l))) in Hy.
      destruct Hy as [<-|Hy]; [unfold start_le; lia|now apply Hx].
Qed.

Lemma sort_by_start_sorted (l : list Event.t) : StronglySorted start_le (sort_by_start l).
Proof.
  induction l as [|e l IH]; cbn; [constructor|]. now apply insert_by_start_sorted.
Qed.

Lemma insert_by_start_stable (t : Z) (e : Event.t) (l : list Event.t) :
  filter (starts_at t) (insert_by_start e l) = filter (starts_at t) (e :: l).
Proof.
  induction l as [|x l IH]; [reflexivity|].
  cbn [insert_by_start].
  destruct (Z.leb_spec (Event.start e) (Event.start x)) as [Hle|Hgt]; [reflexivity|].
  cbn [filter] in *. rewrite IH. unfold starts_at.
  destruct (Z.eqb_spec (Event.start x) t), (Z.eqb_spec (Event.start e) t);
    try reflexivity; lia.
Qed.

Lemma sort_by_start_stable (t : Z) (l : list Event.t) :
  filter (starts_at t) (sort_by_start l) = filter (starts_at t) l.
Proof.
  induction l as [|e l IH]; [reflexivity|].
  cbn [sort_by_start]. rewrite insert_by_start_stable. cbn [filter]. now rewrite IH.
Qed.

(** X15. Whatever the logs, the sequence [generate_timeline] prints from
    holds exactly the events of all the devices, in ascending order of start
    time, and events that start at the same instant keep the order in which
    they were collected: the order of the devices in [self.devices], then the
    order of the log.  Ties are therefore in ascending rank only when the
    devices are listed so: listed in descending rank, they come out in
    descending rank. *)
Theorem merged_events_stable_sort (self : HybridTrainer) (t : Z) :
  Permutation (all_events self) (sort_by_start (all_events self))
  /\ StronglySorted start_le (sort_by_start (all_events self))
  /\ filter (starts_at t) (sort_by_start (all_events self))
     = filter (starts_at t) (all_events self)
  /\ map Event.rank (sort_by_start (all_events reversed)) = [1%nat; 0%nat].
Proof.
  split; [apply sort_by_start_perm|].
  split; [apply sort_by_start_sorted|].
  split; [apply sort_by_start_stable|reflexivity].
Qed.

Lemma all_events_shift_trainer (c : Z) (self : HybridTrainer) :
  all_events (shift_trainer c self) = map (shift_event c) (all_events self).
Proof.
  unfold all_events, shift_trainer. cbn [devices].
  induction (devices self) as [|d ds IH]; [reflexivity|].
  cbn [map flat_map]. now rewrite IH, map_app.
Qed.

(** X16. The printed timeline does not depend on the origin of the clock:
    moving every start time of every log by the same offset, in either
    direction, gives the same rows, or the same error. *)
Theorem generate_timeline_offset_free (c : Z) (self : HybridTrainer) :
  generate_timeline (shift_trainer c self) = generate_timeline self.
Proof.
  apply (generate_timeline_shift c). apply all_events_shift_trainer.
Qed.

Lemma set_col_in_range (c c' : list string) (i : nat) (x : string) :
  set_col c i x = Ok c' -> (i < List.length c)%nat.
Proof.
  intros H. destruct (Nat.lt_ge_cases i (List.length c)) as [Hlt|Hge]; [exact Hlt|].
  rewrite set_col_out_of_range in H by exact Hge. discriminate H.
Qed.

Lemma print_rows_rows (t0 : Z) (evs : list Event.t) (rows : list Row) :
  print_rows t0 evs = Ok rows -> Forall2 (row_of t0) evs rows.
Proof.
  intros H.
  assert (Hall : Forall (fun e => (Event.rank e < 4)%nat) evs).
  { revert rows H. induction evs as [|e evs IH]; intros rows H; [constructor|].
    cbn [print_rows] in H.
    destruct (set_col _ _ _) as [c|] eqn:Ec; [|discriminate].
    destruct (print_rows t0 evs) as [rows'|]; [|discriminate].
    constructor; [|now apply (IH rows')].
    apply set_col_in_range in Ec. exact Ec. }
  destruct (print_rows_ok t0 evs Hall) as (rows' & E & Hrows).
  rewrite E in H. apply Ok_inj in H. now subst.
Qed.

(** X17. Whatever the logs, when [generate_timeline] prints rows, the rows
    show the merged events one by one, each at its start time minus the
    earliest start time of all: the first row is at offset 0, no offset is
    negative, and offsets never decrease down the table. *)
Theorem timeline_offsets (self : HybridTrainer) (rows : list Row) :
  generate_timeline self = Ok rows ->
  all_events self <> [] ->
  exists first rest r0 rows',
    sort_by_start (all_events self) = first :: rest
    /\ (forall e, In e (all_events self) -> Event.start first <= Event.start e)
    /\ Forall2 (row_of (Event.start first)) (first :: rest) rows
    /\ rows = r0 :: rows' /\ t_rel r0 = 0
    /\ (forall r, In r rows -> 0 <= t_rel r)
    /\ StronglySorted (fun r1 r2 => t_rel r1 <= t_rel r2) rows.
Proof.
  intros Hgen Hne.
  pose proof (sort_by_start_perm (all_events self)) as Hperm.
  pose proof (sort_by_start_sorted (all_events self)) as Hsorted.
  unfold generate_timeline in Hgen.
  destruct (sort_by_start (all_events self)) as [|first rest] eqn:E.
  - apply Permutation_sym, Permutation_nil in Hperm. contradiction.
  - apply print_rows_rows in Hgen.
    assert (Hmin : forall e, In e (first :: rest) -> Event.start first <= Event.start e).
    { intros e [<-|He]; [lia|].
      inversion Hsorted as [|? ? _ Hall]; subst.
      rewrite Forall_forall in Hall. now apply Hall. }
    inversion Hgen as [|? r0 ? rows' Hr0 Hrest]; subst.
    exists first, rest, r0, rows'.
    split; [reflexivity|]. split.
    { intros e He. apply Hmin. now apply (Permutation_in _ Hperm). }
    split; [exact Hgen|]. split; [reflexivity|]. split.
    { destruct Hr0 as [Ht _]. lia. }
    split.
    { intros r Hr. destruct (Forall2_In_r _ _ _ Hgen r Hr) as (e & He & [Ht _]).
      specialize (Hmin e He). lia. }
    clear Hmin Hperm E Hne Hr0 Hrest.
    revert Hsorted. generalize (Event.start first) as t0.
    induction Hgen as [|e r evs rs Her Hall IH]; intros t0 Hs; [constructor|].
    inversion Hs as [|? ? Hs' Hle]; subst.
    constructor; [now apply IH|].
    rewrite Forall_forall in *. intros r' Hr'.
    destruct (Forall2_In_r _ _ _ Hall r' Hr') as (e' & He' & [Ht' _]).
    destruct Her as [Ht _]. specialize (Hle e' He'). unfold start_le in Hle. lia.
Qed.

Lemma timeline_offsets_witness :
  exists first rest r0 rows',
    sort_by_start (all_events reversed) = first :: rest
    /\ (forall e, In e (all_events reversed) -> Event.start first <= Event.start e)
    /\ Forall2 (row_of (Event.start first)) (first :: rest)
         [ {| t_rel := 0; cols := [""; "Forward MB 0"; ""; ""]%string |};
           {| t_rel := 0; cols := ["Forward MB 0"; ""; ""; ""]%string |} ]
    /\ [ {| t_rel := 0; cols := [""; "Forward MB 0"; ""; ""]%string |};
         {| t_rel := 0; cols := ["Forward MB 0"; ""; ""; ""]%string |} ] = r0 :: rows'
    /\ t_rel r0 = 0
    /\ (forall r,
           In r [ {| t_rel := 0; cols := [""; "Forward MB 0"; ""; ""]%string |};
                  {| t_rel := 0; cols := ["Forward MB 0"; ""; ""; ""]%string |} ] ->
           0 <= t_rel r)
    /\ StronglySorted (fun r1 r2 => t_rel r1 <= t_rel r2)
         [ {| t_rel := 0; cols := [""; "Forward MB 0"; ""; ""]%string |};
           {| t_rel := 0; cols := ["Forward MB 0"; ""; ""; ""]%string |} ].
Proof.
  apply (timeline_offsets reversed).
  - reflexivity.
  - discriminate.
Defined.

(** ** The rhythm of the last stage *)

Lemma exec_all_keeps_log (lag : nat -> Z) (e : Event.t) (cs : list Instruction) :
  forall s, In e (log (dev s)) -> In e (log (dev (exec_all lag cs s))).
Proof.
  induction cs as [|c cs IH]; intros s H; [exact H|].
  rewrite exec_all_cons. apply IH. rewrite exec_log. apply in_or_app. now left.
Qed.

Lemma pairs_logged_on_time (lag : nat -> Z) (f g : Z -> Z) (i : Z) (n : nat) :
  (forall k, lag k = 0) ->
  forall a b s,
    Z.to_nat (b - a) = n -> a <= i < b ->
    let l := log (dev (exec_all lag
                         (flat_map (fun j => [Forward (f j); Backward (g j)]) (range a b)) s)) in
    In (Event.mk (rank (dev s)) (event_name (Forward (f i))) (now s + 130 * (i - a)) 50) l
    /\ In (Event.mk (rank (dev s)) (event_name (Backward (g i)))
             (now s + 130 * (i - a) + 50) 80) l.
Proof.
  intros Hz. induction n as [|n IH]; intros a b s Hn Hi l; [lia|].
  subst l. rewrite range_cons by lia. cbn [flat_map].
  rewrite exec_all_app.
  set (s' := exec_all lag [Forward (f a); Backward (g a)] s).
  assert (Hlog : log (dev s')
                 = log (dev s)
                   ++ [ Event.mk (rank (dev s)) (event_name (Forward (f a))) (now s) 50;
                        Event.mk (rank (dev s)) (event_name (Backward (g a)))
                          (now s + 50) 80 ]).
  { subst s'. unfold exec_all. cbn [fold_left].
    rewrite !exec_log, exec_now, exec_rank, Hz, <- app_assoc. cbn [cost app].
    do 4 f_equal. lia. }
  assert (Hnow : now s' = now s + 130).
  { subst s'. unfold exec_all. cbn [fold_left].
    rewrite !exec_now, !Hz. cbn [cost]. lia. }
  assert (Hrank : rank (dev s') = rank (dev s)).
  { subst s'. apply exec_all_rank. }
  destruct (Z.eq_dec i a) as [->|Hne].
  - replace (now s + 130 * (a - a)) with (now s) by lia.
    split; apply exec_all_keeps_log; rewrite Hlog; apply in_or_app; right; cbn; auto.
  - destruct (IH (a + 1) b s' ltac:(lia) ltac:(lia)) as [HF HB].
    rewrite Hrank, Hnow in HF, HB.
    replace (now s + 130 + 130 * (i - (a + 1))) with (now s + 130 * (i - a)) in HF, HB by lia.
    split; assumption.
Qed.

Lemma stage1_entries_on_time (lag : nat -> Z) (self : HybridTrainer) (r : nat)
        (device d : Device) (t0 i : Z) :
  (forall k, lag k = 0) ->
  nth_error (devices self) r = Some device ->
  log device = [] ->
  stage device = 1 ->
  2 <= micro_batches self ->
  run_1f1b_schedule lag self r t0 = Ok d ->
  0 <= i < micro_batches self ->
  In (Event.mk (rank device) (event_name (Forward i)) (t0 + 130 * i) 50) (log d)
  /\ In (Event.mk (rank device) (event_name (Backward i)) (t0 + 130 * i + 50) 80) (log d).
Proof.
  intros Hz Hdev Hlog Hst HM Hrun Hi.
  rewrite (run_1f1b_schedule_calls _ _ _ _ _ Hdev) in Hrun.
  apply Ok_inj in Hrun. subst d.
  rewrite Hst, stage1_one_pair_each by lia.
  destruct (pairs_logged_on_time lag (fun j => j) (fun j => j) i
              (Z.to_nat (micro_batches self - 0)) Hz
              0 (micro_batches self) {| dev := device; now := t0 |} eq_refl Hi)
    as [HF HB].
  cbn [dev now] in HF, HB.
  replace (t0 + 130 * (i - 0)) with (t0 + 130 * i) in HF, HB by lia.
  rewrite all_reduce_unfold. unfold log_event. cbn [dev log set_log].
  split; apply in_or_app; left; apply in_or_app; left; assumption.
Qed.

(** X18. When no sleep overshoots, the last stage processes one micro-batch
    every 130 ms: with at least two micro-batches, a stage-1 device whose
    thread starts at [t0] logs Forward(i) at exactly [t0 + 130 * i] and
    Backward(i) at exactly [t0 + 130 * i + 50], for every micro-batch [i] of
    the batch. *)
Theorem last_stage_rhythm (lag : nat -> Z) (self : HybridTrainer) (r : nat)
        (device d : Device) (t0 i : Z) :
  (forall k, lag k = 0) ->
  nth_error (devices self) r = Some device ->
  log device = [] ->
  stage device = 1 ->
  2 <= micro_batches self ->
  run_1f1b_schedule lag self r t0 = Ok d ->
  0 <= i < micro_batches self ->
  In (Event.mk (rank device) (event_name (Forward i)) (t0 + 130 * i) 50) (log d)
  /\ In (Event.mk (rank device) (event_name (Backward i)) (t0 + 130 * i + 50) 80) (log d).
Proof.
  intros Hz Hdev Hlog Hst.
  exact (stage1_entries_on_time lag self r device d t0 i Hz Hdev Hlog Hst).
Qed.

Lemma last_stage_rhythm_witness :
  In (Event.mk (rank (Device_init 1 1 4 2)) (event_name (Forward 3))
        (spawn ideal 1 + 130 * 3) 50)
     (log (thread_result ideal 8 1 (Device_init 1 1 4 2)))
  /\ In (Event.mk (rank (Device_init 1 1 4 2)) (event_name (Backward 3))
           (spawn ideal 1 + 130 * 3 + 50) 80)
        (log (thread_result ideal 8 1 (Device_init 1 1 4 2))).
Proof.
  apply (last_stage_rhythm (overshoot ideal 1) HybridTrainer_init 1
           (Device_init 1 1 4 2) (thread_result ideal 8 1 (Device_init 1 1 4 2))
           (spawn ideal 1) 3).
  - reflexivity.
  - reflexivity.
  - reflexivity.
  - reflexivity.
  - cbn. lia.
  - apply run_1f1b_schedule_init. reflexivity.
  - cbn. lia.
Defined.

Lemma stage0_entries_on_time (lag : nat -> Z) (self : HybridTrainer) (r : nat)
        (device d : Device) (t0 i : Z) :
  (forall k, lag k = 0) ->
  nth_error (devices self) r = Some device ->
  log device = [] ->
  stage device = 0 ->
  run_1f1b_schedule lag self r t0 = Ok d ->
  2 <= i < micro_batches self ->
  In (Event.mk (rank device) (event_name (Forward i)) (t0 + 130 * i + 50) 50) (log d)
  /\ In (Event.mk (rank device) (event_name (Backward (i - 1))) (t0 + 130 * i + 100) 80)
        (log d)
  /\ In (Event.mk (rank device) (event_name (Backward (micro_batches self - 1)))
           (t0 + 130 * micro_batches self + 50) 80) (log d).
Proof.
  intros Hz Hdev Hlog Hst Hrun Hi.
  rewrite (run_1f1b_schedule_calls _ _ _ _ _ Hdev) in Hrun.
  apply Ok_inj in Hrun. subst d.
  rewrite Hst, calls_1f1b_stage0, !exec_all_app.
  set (s := exec_all lag [Forward 0; Forward 1; Backward 0; Forward 2; Backward 1]
              {| dev := device; now := t0 |}).
  assert (Hnow : now s = t0 + 310).
  { subst s. unfold exec_all. cbn [fold_left]. rewrite !exec_now, !Hz. cbn [cost now]. lia. }
  assert (Hrank : rank (dev s) = rank device).
  { subst s. now rewrite exec_all_rank. }
  set (loop := flat_map (fun j => [Forward j; Backward (j - 1)]) (range 2 (micro_batches self))).
  destruct (pairs_logged_on_time lag (fun j => j) (fun j => j - 1) i
              (Z.to_nat (micro_batches self - 2)) Hz
              2 (micro_batches self) s eq_refl Hi) as [HF HB].
  fold loop in HF, HB. rewrite Hrank, Hnow in HF, HB.
  replace (t0 + 310 + 130 * (i - 2)) with (t0 + 130 * i + 50) in HF, HB by lia.
  replace (t0 + 130 * i + 50 + 50) with (t0 + 130 * i + 100) in HB by lia.
  assert (Hend : now (exec_all lag loop s) = t0 + 130 * micro_batches self + 50).
  { rewrite exec_all_clock, Hnow. subst loop. rewrite total_cost_pairs, length_range.
    assert (Hzs : forall n k, lag_sum lag k n = 0).
    { induction n as [|n IH]; intros k; [reflexivity|].
      rewrite lag_sum_cons, Hz, IH. reflexivity. }
    rewrite Hzs. lia. }
  rewrite all_reduce_unfold. unfold log_event. cbn [dev log set_log].
  unfold exec_all at 1 3 5. cbn [fold_left]. rewrite !exec_log.
  repeat split; apply in_or_app; left; apply in_or_app; left; apply in_or_app.
  - left. exact HF.
  - left. exact HB.
  - right. rewrite exec_all_rank, Hrank, Hend. now left.
Qed.

(** X19. When no sleep overshoots, the first stage is 180 ms late on that
    rhythm: with at least three micro-batches, a stage-0 device whose thread
    starts at [t0] logs a Forward(i) at [t0 + 130 * i + 50] and a
    Backward(i - 1) at [t0 + 130 * i + 100], for every [i] from 2 to
    [micro_batches - 1], and its cooldown Backward(micro_batches - 1) at
    [t0 + 130 * micro_batches + 50]. *)
Theorem first_stage_rhythm (lag : nat -> Z) (self : HybridTrainer) (r : nat)
        (device d : Device) (t0 i : Z) :
  (forall k, lag k = 0) ->
  nth_error (devices self) r = Some device ->
  log device = [] ->
  stage device = 0 ->
  run_1f1b_schedule lag self r t0 = Ok d ->
  2 <= i < micro_batches self ->
  In (Event.mk (rank device) (event_name (Forward i)) (t0 + 130 * i + 50) 50) (log d)
  /\ In (Event.mk (rank device) (event_name (Backward (i - 1))) (t0 + 130 * i + 100) 80)
        (log d)
  /\ In (Event.mk (rank device) (event_name (Backward (micro_batches self - 1)))
           (t0 + 130 * micro_batches self + 50) 80) (log d).
Proof.
  intros Hz Hdev Hlog Hst.
  exact (stage0_entries_on_time lag self r device d t0 i Hz Hdev Hlog Hst).
Qed.

Lemma first_stage_rhythm_witness :
  In (Event.mk (rank (Device_init 0 0 4 2)) (event_name (Forward 3))
        (spawn ideal 0 + 130 * 3 + 50) 50)
     (log (thread_result ideal 8 0 (Device_init 0 0 4 2)))
  /\ In (Event.mk (rank (Device_init 0 0 4 2)) (event_name (Backward (3 - 1)))
           (spawn ideal 0 + 130 * 3 + 100) 80)
        (log (thread_result ideal 8 0 (Device_init 0 0 4 2)))
  /\ In (Event.mk (rank (Device_init 0 0 4 2))
           (event_name (Backward (micro_batches HybridTrainer_init - 1)))
           (spawn ideal 0 + 130 * micro_batches HybridTrainer_init + 50) 80)
        (log (thread_result ideal 8 0 (Device_init 0 0 4 2))).
Proof.
  apply (first_stage_rhythm (overshoot ideal 0) HybridTrainer_init 0
           (Device_init 0 0 4 2) (thread_result ideal 8 0 (Device_init 0 0 4 2))
           (spawn ideal 0) 3).
  - reflexivity.
  - reflexivity.
  - reflexivity.
  - reflexivity.
  - apply run_1f1b_schedule_init. reflexivity.
  - cbn. lia.
Defined.


(** X20. The last stage does not wait for the first.  When no sleep
    overshoots and the thread of a stage-1 device starts less than 100 ms
    after the thread of a stage-0 device, then for every micro-batch [i] from 2
    on, Forward(i) starts on stage 1 before a Forward(i) of stage 0 is over:
    the activation is consumed before it is produced. *)
Theorem last_stage_runs_ahead (lag0 lag1 : nat -> Z) (self : HybridTrainer)
        (r0 r1 : nat) (device0 device1 d0 d1 : Device) (t0 t1 i : Z) :
  (forall k, lag0 k = 0) -> (forall k, lag1 k = 0) ->
  nth_error (devices self) r0 = Some device0 -> log device0 = [] -> stage device0 = 0 ->
  nth_error (devices self) r1 = Some device1 -> log device1 = [] -> stage device1 = 1 ->
  run_1f1b_schedule lag0 self r0 t0 = Ok d0 ->
  run_1f1b_schedule lag1 self r1 t1 = Ok d1 ->
  2 <= i < micro_batches self ->
  t1 < t0 + 100 ->
  exists f0 f1,
    In f0 (log d0) /\ Event.event f0 = event_name (Forward i)
    /\ In f1 (log d1) /\ Event.event f1 = event_name (Forward i)
    /\ Event.start f1 < Event.start f0 + Event.duration f0.
Proof.
  intros Hz0 Hz1 Hdev0 Hlog0 Hst0 Hdev1 Hlog1 Hst1 Hrun0 Hrun1 Hi Ht.
  destruct (stage0_entries_on_time lag0 self r0 device0 d0 t0 i
              Hz0 Hdev0 Hlog0 Hst0 Hrun0 Hi) as [HF0 _].
  destruct (stage1_entries_on_time lag1 self r1 device1 d1 t1 i
              Hz1 Hdev1 Hlog1 Hst1 ltac:(lia) Hrun1 ltac:(lia)) as [HF1 _].
  eexists _, _. split; [exact HF0|]. split; [reflexivity|].
  split; [exact HF1|]. split; [reflexivity|].
  cbn [Event.start Event.duration]. lia.
Qed.

Lemma last_stage_runs_ahead_witness :
  exists f0 f1,
    In f0 (log (thread_result ideal 8 0 (Device_init 0 0 4 2)))
    /\ Event.event f0 = event_name (Forward 5)
    /\ In f1 (log (thread_result ideal 8 1 (Device_init 1 1 4 2)))
    /\ Event.event f1 = event_name (Forward 5)
    /\ Event.start f1 < Event.start f0 + Event.duration f0.
Proof.
  apply (last_stage_runs_ahead (overshoot ideal 0) (overshoot ideal 1) HybridTrainer_init
           0 1 (Device_init 0 0 4 2) (Device_init 1 1 4 2)
           (thread_result ideal 8 0 (Device_init 0 0 4 2))
           (thread_result ideal 8 1 (Device_init 1 1 4 2))
           (spawn ideal 0) (spawn ideal 1) 5).
  - reflexivity.
  - reflexivity.
  - reflexivity.
  - reflexivity.
  - reflexivity.
  - reflexivity.
  - reflexivity.
  - reflexivity.
  - apply run_1f1b_schedule_init. reflexivity.
  - apply run_1f1b_schedule_init. reflexivity.
  - cbn. lia.
  - cbn. lia.
Defined.
